(** * WaVeS: the slider-to-audio-session mapping engine of [control.py]

    A shallow embedding of the class [Control] of [src/control.py]: the
    configuration lookup [get_setting], the mapping resolver [get_mapping]
    and the volume dispatcher [set_volume], followed by the properties the
    specification states about them.

    Conventions of the embedding.
    - A Python [str] is a [string]; its characters are read as the code
      points U+0000..U+00FF, which fixes [str.strip] and [str.lower] on every
      character of the type.  Text with code points above U+00FF is outside
      the model.
    - A Python [int] is a [Z]; a Python [float] is a binary64 [float].
    - A Python [dict] is an association list in insertion order; assigning to
      a key that is present replaces the value in place, as CPython does.
    - A raised exception is the [Raise] branch of [result]. *)

From Stdlib Require Import ZArith List String Ascii Bool Lia.
From Stdlib Require Import Floats Uint63 DecimalString FinFun Sorted.
Import ListNotations.

Local Open Scope string_scope.
Local Open Scope Z_scope.

(** ** Exceptions *)

Inductive exn : Type :=
| IndexError      (* a list indexed out of range *)
| AttributeError  (* an attribute looked up on [None] *)
| VolumeSetError. (* a volume handle that is no longer valid *)

Inductive result (A : Type) : Type :=
| Ok (a : A)
| Raise (e : exn).

Arguments Ok {A} a.
Arguments Raise {A} e.

Definition bind {A B : Type} (r : result A) (k : A -> result B) : result B :=
  match r with
  | Ok a => k a
  | Raise e => Raise e
  end.

Notation "x <- r ;; k" := (bind r (fun x => k))
  (at level 61, r at next level, right associativity).

Definition is_ok {A : Type} (r : result A) : bool :=
  match r with Ok _ => true | Raise _ => false end.

(** ** Python strings *)

Module Str.

Definition code (c : ascii) : N := N_of_ascii c.

Definition between (lo hi n : N) : bool := (N.leb lo n && N.leb n hi)%bool.

(** [str.isspace] on one character: U+0009..U+000D, U+001C..U+0020,
    U+0085 and U+00A0. *)
Definition isspace (c : ascii) : bool :=
  (between 9 13 (code c) || between 28 32 (code c)
   || N.eqb (code c) 133 || N.eqb (code c) 160)%bool.

(** [str.lower] on one character: A..Z and the accented capitals
    U+00C0..U+00DE, the multiplication sign U+00D7 apart. *)
Definition lower_char (c : ascii) : ascii :=
  if (between 65 90 (code c)
      || (between 192 222 (code c) && negb (N.eqb (code c) 215)))%bool
  then ascii_of_N (code c + 32)
  else c.

Fixpoint lower (s : string) : string :=
  match s with
  | EmptyString => EmptyString
  | String c t => String (lower_char c) (lower t)
  end.

Fixpoint lstrip (s : string) : string :=
  match s with
  | EmptyString => EmptyString
  | String c t => if isspace c then lstrip t else s
  end.

Fixpoint rstrip (s : string) : string :=
  match s with
  | EmptyString => EmptyString
  | String c t =>
      match rstrip t with
      | EmptyString => if isspace c then EmptyString else String c EmptyString
      | r => String c r
      end
  end.

(** [s.strip()] *)
Definition strip (s : string) : string := rstrip (lstrip s).

(** [s.split(sep)] for a one-character separator. *)
Fixpoint split (sep : ascii) (s : string) : list string :=
  match s with
  | EmptyString => [EmptyString]
  | String c t =>
      if Ascii.eqb c sep then EmptyString :: split sep t
      else match split sep t with
           | h :: r => String c h :: r
           | [] => [String c EmptyString]
           end
  end.

(** [needle in hay] *)
Fixpoint contains (needle hay : string) : bool :=
  (String.prefix needle hay
   || match hay with
      | EmptyString => false
      | String _ t => contains needle t
      end)%bool.

(** [str(z)] *)
Definition of_int (z : Z) : string := NilEmpty.string_of_int (Z.to_int z).

End Str.

(** ** Python lists *)

(** [l[i]], negative indices counting from the end. *)
Definition py_index {A : Type} (l : list A) (i : Z) : result A :=
  let n := Z.of_nat (List.length l) in
  let j := if i <? 0 then i + n else i in
  if (0 <=? j) && (j <? n)
  then match nth_error l (Z.to_nat j) with
       | Some a => Ok a
       | None => Raise IndexError
       end
  else Raise IndexError.

(** ** Python dictionaries *)

Section Dict.

Context {K V : Type}.
Variable K_eq_dec : forall x y : K, {x = y} + {x <> y}.

Definition dict : Type := list (K * V).

Fixpoint dict_get (k : K) (d : dict) : option V :=
  match d with
  | [] => None
  | (k', v) :: r => if K_eq_dec k k' then Some v else dict_get k r
  end.

(** [d[k] = v] *)
Fixpoint dict_set (k : K) (v : V) (d : dict) : dict :=
  match d with
  | [] => [(k, v)]
  | (k', v') :: r =>
      if K_eq_dec k k' then (k', v) :: r else (k', v') :: dict_set k v r
  end.

Definition dict_keys (d : dict) : list K := map fst d.
Definition dict_values (d : dict) : list V := map snd d.

End Dict.

Arguments dict K V : clear implicits.

(** ** The configuration lookup *)

Definition colon : ascii := ":"%char.
Definition comma : ascii := ","%char.
Definition newline : ascii := "010"%char.

(** [list(filter(lambda x: text + ":" in x, lines))] *)
Definition matching_lines (text : string) (lines : list string) : list string :=
  filter (fun x => Str.contains (text ++ ":") x) lines.

(** [Control.get_setting]: the first line that contains [text + ":"], cut at
    its colons; the piece after the first colon, stripped. *)
Definition get_setting (lines : list string) (text : string) : result string :=
  setting <- py_index (matching_lines text lines) 0 ;;
  piece <- py_index (Str.split colon setting) 1 ;;
  Ok (Str.strip piece).

(** ** Audio sessions

    A session object of [AudioUtilities.GetAllSessions()].  [ident] stands for
    the identity of the Python object: pycaw's session class defines no
    [__eq__], so [==] and [in] compare identities, and two sessions are the
    same object exactly when the records are equal.  [Process] is [None] or
    the name of the process ([session.Process.name()]). *)
Record AudioSession : Type := mkAudioSession {
  ident : nat;
  Process : option string;
  DisplayName : string
}.

Definition AudioSession_eq_dec (a b : AudioSession) : {a = b} + {a <> b}.
Proof.
  decide equality.
  - apply string_dec.
  - decide equality. apply string_dec.
  - decide equality.
Defined.

(** [ses in l] *)
Definition session_in (ses : AudioSession) (l : list AudioSession) : bool :=
  if in_dec AudioSession_eq_dec ses l then true else false.

(** [l.remove(ses)] on a list that holds [ses]: the first occurrence goes. *)
Fixpoint list_remove (ses : AudioSession) (l : list AudioSession)
  : list AudioSession :=
  match l with
  | [] => []
  | x :: r => if AudioSession_eq_dec ses x then r else x :: list_remove ses r
  end.

(** The session classes of [sessions.py], a file of the repository that is
    not among the sources at hand: a value records which class was
    instantiated and with which arguments. *)
Inductive SessionObject : Type :=
| Master (idx : Z)
| System (idx : Z) (session : AudioSession)
| Session (idx : Z) (session : AudioSession)
| SessionGroup (group_idx : Z) (sessions : list AudioSession).

(** A key of [target_idxs]: the text of a declaration, or the tuple of the
    names of a comma-separated one.  A [str] never equals a [tuple]. *)
Inductive target_key : Type :=
| KStr (application_str : string)
| KTuple (apps : list string).

Definition target_key_eq_dec (a b : target_key) : {a = b} + {a <> b}.
Proof.
  decide equality.
  - apply string_dec.
  - apply (list_eq_dec string_dec).
Defined.

(** ** The object and its surroundings *)

(** The fields of a [Control] object. *)
Record Control : Type := mkControl {
  lines : list string;
  sliders : Z;
  port : option string;
  baudrate : option string;
  inverted : bool;
  unmapped : list AudioSession;
  target_idxs : dict target_key Z;
  found_pycaw_sessions : option (list AudioSession);
  sessions : option (dict Z SessionObject)
}.

(** What a resolution pass reads from outside the object: the text of the
    file at [self.path] and the answer of [AudioUtilities.GetAllSessions()]. *)
Record World : Type := mkWorld {
  config_text : string;
  live_sessions : list AudioSession
}.

(** [Control.load_config] *)
Definition load_config (w : World) (self : Control) : Control :=
  mkControl (Str.split newline (config_text w)) (sliders self) (port self)
            (baudrate self) (inverted self) (unmapped self) (target_idxs self)
            (found_pycaw_sessions self) (sessions self).

(** [range(n)] *)
Definition range (n : Z) : list Z := map Z.of_nat (seq 0 (Z.to_nat n)).

(** ** The mapping resolver *)

(** Lines 102-104: the key under which slider [idx] is stored. *)
Definition declaration (lines : list string) (idx : Z) : result target_key :=
  application_str <- get_setting lines (Str.of_int idx) ;;
  Ok (if Str.contains "," application_str
      then KTuple (map Str.strip (Str.split comma application_str))
      else KStr application_str).

(** Lines 101-105: the loop that fills [self.target_idxs]. *)
Fixpoint read_target_idxs (lines : list string) (idxs : list Z)
    (target_idxs : dict target_key Z) : result (dict target_key Z) :=
  match idxs with
  | [] => Ok target_idxs
  | idx :: rest =>
      application_str <- declaration lines idx ;;
      read_target_idxs lines rest
        (dict_set target_key_eq_dec application_str idx target_idxs)
  end.

(** Lines 110-112: the dictionary comprehension over the found sessions. *)
Fixpoint build_active_sessions (found : list AudioSession)
    (active_sessions : dict string AudioSession) : dict string AudioSession :=
  match found with
  | [] => active_sessions
  | session :: rest =>
      match Process session with
      | Some name =>
          build_active_sessions rest
            (dict_set string_dec (Str.lower name) session active_sessions)
      | None => build_active_sessions rest active_sessions
      end
  end.

(** Line 114 *)
Definition find_system_session (found : list AudioSession)
  : result AudioSession :=
  py_index (filter (fun session => Str.contains "SystemRoot" (DisplayName session))
                   found) 0.

(** [target_app in ['master', 'system', 'unmapped']] *)
Definition is_category (target_app : string) : bool :=
  (String.eqb target_app "master" || String.eqb target_app "system"
   || String.eqb target_app "unmapped")%bool.

(** Lines 136-147: the loop over the names of a tuple.  The state is
    [active_sessions_in_group] and [mapped_sessions]. *)
Fixpoint collect_group (active_sessions : dict string AudioSession)
    (target : list string)
    (active_sessions_in_group mapped_sessions : list AudioSession)
  : list AudioSession * list AudioSession :=
  match target with
  | [] => (active_sessions_in_group, mapped_sessions)
  | target_app :: rest =>
      let target_app := Str.lower target_app in
      if is_category target_app
      then collect_group active_sessions rest
             active_sessions_in_group mapped_sessions
      else match dict_get string_dec target_app active_sessions with
           | Some session =>
               collect_group active_sessions rest
                 (active_sessions_in_group ++ [session])%list
                 (mapped_sessions ++ [session])%list
           | None =>
               collect_group active_sessions rest
                 active_sessions_in_group mapped_sessions
           end
  end.

(** Lines 117-152: one turn of the loop over [self.target_idxs.items()].  The
    state is [session_dict] and [mapped_sessions].  The test
    [target in active_sessions] and the lookup that follows it are one
    [dict_get]: the values of [active_sessions] are sessions, never [None]. *)
Definition resolve_item (active_sessions : dict string AudioSession)
    (system_session : AudioSession)
    (st : dict Z SessionObject * list AudioSession) (item : target_key * Z)
  : dict Z SessionObject * list AudioSession :=
  let '(session_dict, mapped_sessions) := st in
  let '(target, idx) := item in
  match target with
  | KStr target =>
      let target := Str.lower target in
      if String.eqb target "master" then
        (dict_set Z.eq_dec idx (Master idx) session_dict, mapped_sessions)
      else if String.eqb target "system" then
        (dict_set Z.eq_dec idx (System idx system_session) session_dict,
         (mapped_sessions ++ [system_session])%list)
      else if negb (String.eqb target "unmapped") then
        match dict_get string_dec target active_sessions with
        | Some session =>
            (dict_set Z.eq_dec idx (Session idx session) session_dict,
             (mapped_sessions ++ [session])%list)
        | None => (session_dict, mapped_sessions)
        end
      else (session_dict, mapped_sessions)
  | KTuple target =>
      let '(active_sessions_in_group, mapped_sessions) :=
        collect_group active_sessions target [] mapped_sessions in
      if (0 <? Z.of_nat (List.length active_sessions_in_group))
      then (dict_set Z.eq_dec idx (SessionGroup idx active_sessions_in_group)
              session_dict, mapped_sessions)
      else (session_dict, mapped_sessions)
  end.

(** Lines 116-152 *)
Definition resolve_items (active_sessions : dict string AudioSession)
    (system_session : AudioSession) (target_idxs : dict target_key Z)
  : dict Z SessionObject * list AudioSession :=
  fold_left (resolve_item active_sessions system_session) target_idxs ([], []).

(** Line 156 *)
Definition not_mapped (active_sessions : dict string AudioSession)
    (mapped_sessions : list AudioSession) : list AudioSession :=
  filter (fun ses => negb (session_in ses mapped_sessions))
         (dict_values active_sessions).

(** Lines 154-163: the [unmapped] slider, resolved after all the others. *)
Definition resolve_unmapped (lines : list string)
    (active_sessions : dict string AudioSession)
    (system_session : AudioSession) (target_idxs : dict target_key Z)
    (st : dict Z SessionObject * list AudioSession)
  : result (dict Z SessionObject) :=
  let '(session_dict, mapped_sessions) := st in
  match dict_get target_key_eq_dec (KStr "unmapped") target_idxs with
  | Some unmapped_idx =>
      let unmapped_sessions := not_mapped active_sessions mapped_sessions in
      setting <- get_setting lines "system in unmapped" ;;
      let unmapped_sessions :=
        if (String.eqb (Str.lower setting) "false"
            && session_in system_session unmapped_sessions)%bool
        then list_remove system_session unmapped_sessions
        else unmapped_sessions in
      Ok (dict_set Z.eq_dec unmapped_idx
            (SessionGroup unmapped_idx unmapped_sessions) session_dict)
  | None => Ok session_dict
  end.

(** [Control.get_mapping].  A pass that raises leaves no result: the fields
    it had already assigned are not observed by any caller in the sources. *)
Definition get_mapping (w : World) (self : Control) : result Control :=
  let self := load_config w self in
  target_idxs <- read_target_idxs (lines self) (range (sliders self)) [] ;;
  let found := live_sessions w in
  let active_sessions := build_active_sessions found [] in
  system_session <- find_system_session found ;;
  session_dict <-
    resolve_unmapped (lines self) active_sessions system_session target_idxs
      (resolve_items active_sessions system_session target_idxs) ;;
  Ok (mkControl (lines self) (sliders self) (port self) (baudrate self)
        (inverted self) (unmapped self) target_idxs (Some found)
        (Some session_dict)).

(** Line 78 of [Control.__init__]:
    [self.inverted = self.get_setting("inverted") in ["True", "true"]]. *)
Definition read_inverted (lines : list string) : result bool :=
  setting <- get_setting lines "inverted" ;;
  Ok (existsb (String.eqb setting) ["True"; "true"]).

(** ** The volume dispatcher *)

(** [a / b] on two [int]s whose absolute values are at most 2^53, where the
    conversion to binary64 is exact and the quotient is rounded once, as
    Python's true division rounds it.  The readings of the device and the
    divisor 1023 lie well inside that range. *)
Definition float_of_int (z : Z) : float :=
  match z with
  | Z0 => PrimFloat.of_uint63 0%uint63
  | Zpos _ => PrimFloat.of_uint63 (Uint63.of_Z z)
  | Zneg p => PrimFloat.opp (PrimFloat.of_uint63 (Uint63.of_Z (Zpos p)))
  end.

Definition true_div (a b : Z) : float :=
  PrimFloat.div (float_of_int a) (float_of_int b).

(** Lines 194-196: the volume for one raw reading. *)
Definition normalize (inverted : bool) (reading : Z) : float :=
  let volume := true_div reading 1023 in
  if inverted then PrimFloat.sub 1%float volume else volume.

Section Dispatcher.

(** The state of the operating system's mixer, and [app.set_volume(volume)]
    of the classes of [sessions.py] acting on it: both are outside the
    sources at hand and stay parameters.  A call returns the mixer it
    leaves behind, and whether it returned or raised. *)
Variable Mixer : Type.
Variable app_set_volume :
  SessionObject -> float -> Mixer -> Mixer * result unit.

(** Lines 193-197: the loop over [self.sessions.items()]. *)
Fixpoint dispatch (inverted : bool) (values : list Z)
    (items : dict Z SessionObject) (m : Mixer) : Mixer * result unit :=
  match items with
  | [] => (m, Ok tt)
  | (index, app) :: rest =>
      match py_index values index with
      | Raise e => (m, Raise e)
      | Ok reading =>
          match app_set_volume app (normalize inverted reading) m with
          | (m', Ok _) => dispatch inverted values rest m'
          | (m', Raise e) => (m', Raise e)
          end
      end
  end.

(** [Control.set_volume] *)
Definition set_volume (self : Control) (values : list Z) (m : Mixer)
  : Mixer * result unit :=
  match sessions self with
  | Some session_dict => dispatch (inverted self) values session_dict m
  | None => (m, Raise AttributeError)
  end.

End Dispatcher.

(** A mixer that only keeps the calls it received, in order. *)
Definition call_log : Type := list (SessionObject * float).

Definition record_call (app : SessionObject) (volume : float) (log : call_log)
  : call_log * result unit :=
  ((log ++ [(app, volume)])%list, Ok tt).

(** Modelled from the spec: [Session.set_volume] of [sessions.py], a file
    that is not among the sources at hand.  "Each LiveSession exposes
    set_volume(level: float), fails with a VolumeSetError when the underlying
    OS handle has become invalid": here the handle of the session with
    identity [dead] has gone stale, a call on the [Session] that wraps it
    raises and changes nothing, and every other call is recorded. *)
Definition stale_call (dead : nat) (app : SessionObject) (volume : float)
    (log : call_log) : call_log * result unit :=
  match app with
  | Session _ session =>
      if Nat.eqb (ident session) dead then (log, Raise VolumeSetError)
      else record_call app volume log
  | _ => record_call app volume log
  end.

(** A freshly allocated object, before [__init__] has read the file. *)
Definition blank (sliders : Z) (inverted : bool) : Control :=
  mkControl [] sliders None None inverted [] [] None None.

(** The part of a line that [get_setting] returns. *)
Definition value_of_line (line : string) : string :=
  Str.strip (nth 1 (Str.split colon line) "").

(** The key that the loop of lines 101-105 derives from a value. *)
Definition key_of_value (application_str : string) : target_key :=
  if Str.contains "," application_str
  then KTuple (map Str.strip (Str.split comma application_str))
  else KStr application_str.

(** [values[index]] for an index known to be in range. *)
Definition reading_at (values : list Z) (index : Z) : Z :=
  nth (Z.to_nat index) values 0.

(** [c in s] for one character. *)
Fixpoint has_char (c : ascii) (s : string) : bool :=
  match s with
  | EmptyString => false
  | String a t => (Ascii.eqb a c || has_char c t)%bool
  end.

(** Sessions used in the examples: two processes and the system sounds. *)
Definition chrome : AudioSession := mkAudioSession 1 (Some "chrome.exe") "".
Definition firefox : AudioSession := mkAudioSession 2 (Some "firefox.exe") "".
Definition system_sounds : AudioSession :=
  mkAudioSession 0 None "@%SystemRoot%\System32\AudioSrv.Dll,-202".

(** ["\n".join(lines)]: the text of a file, from its lines. *)
Definition unlines (lines : list string) : string :=
  String.concat (String newline "") lines.

(** A configuration that declares slider 0 twice. *)
Definition declared_twice : World :=
  mkWorld (unlines ["sliders: 1"; "0: chrome.exe"; "0: firefox.exe";
                    "system in unmapped:True"])
          [system_sounds; chrome; firefox].

(** The scenario of the specification: sliders 0 to 3 declared as master,
    system, chrome.exe and unmapped, with chrome.exe, firefox.exe and the
    system sounds running.  The value of [system in unmapped] and the process
    behind the system sounds session (pycaw reports none for it) are left
    open. *)
Definition scenario (system_in_unmapped : bool) (system_has_process : bool)
  : World :=
  let sys := mkAudioSession 0
               (if system_has_process then Some "audiodg.exe" else None)
               "@%SystemRoot%\System32\AudioSrv.Dll,-202" in
  mkWorld (unlines ["0: master"; "1: system"; "2: chrome.exe"; "3: unmapped";
                    "sliders: 4";
                    if system_in_unmapped then "system in unmapped:True"
                    else "system in unmapped:False"])
          [chrome; firefox; sys].

(** The sessions that a target controls. *)
Definition claimed_by (app : SessionObject) : list AudioSession :=
  match app with
  | Master _ => []
  | System _ session => [session]
  | Session _ session => [session]
  | SessionGroup _ sessions => sessions
  end.

(** The sessions that the loop of lines 136-147 finds for the names of a
    tuple, in the order of the names. *)
Fixpoint group_hits (active_sessions : dict string AudioSession)
    (target : list string) : list AudioSession :=
  match target with
  | [] => []
  | target_app :: rest =>
      if is_category (Str.lower target_app)
      then group_hits active_sessions rest
      else match dict_get string_dec (Str.lower target_app) active_sessions with
           | Some session => session :: group_hits active_sessions rest
           | None => group_hits active_sessions rest
           end
  end.

(** What one turn of the loop of lines 116-152 stores at [idx] for the key
    [target], if it stores anything. *)
Definition bound_target (active_sessions : dict string AudioSession)
    (system_session : AudioSession) (target : target_key) (idx : Z)
  : option SessionObject :=
  match target with
  | KStr target =>
      if String.eqb (Str.lower target) "master" then Some (Master idx)
      else if String.eqb (Str.lower target) "system"
      then Some (System idx system_session)
      else if String.eqb (Str.lower target) "unmapped" then None
      else option_map (Session idx)
             (dict_get string_dec (Str.lower target) active_sessions)
  | KTuple target =>
      match group_hits active_sessions target with
      | [] => None
      | hits => Some (SessionGroup idx hits)
      end
  end.

Definition claimed_by_option (app : option SessionObject) : list AudioSession :=
  match app with
  | Some app => claimed_by app
  | None => []
  end.

(** The invariant of the loop of lines 116-152: every session that a stored
    target controls is in [mapped_sessions]. *)
Definition claims_recorded (st : dict Z SessionObject * list AudioSession)
  : Prop :=
  forall idx app session,
    In (idx, app) (fst st) -> In session (claimed_by app) ->
    In session (snd st).

(** Lines 156-158: the members of the unmapped group, from the sessions
    that the other sliders claimed and the value of [system in unmapped]. *)
Definition unmapped_members (active_sessions : dict string AudioSession)
    (system_session : AudioSession) (mapped_sessions : list AudioSession)
    (setting : string) : list AudioSession :=
  if (String.eqb (Str.lower setting) "false"
      && session_in system_session
           (not_mapped active_sessions mapped_sessions))%bool
  then list_remove system_session (not_mapped active_sessions mapped_sessions)
  else not_mapped active_sessions mapped_sessions.

(** The last of the indices [idxs] whose declaration is [key], if any: the
    value that the loop of lines 101-105 leaves under [key]. *)
Fixpoint last_declared (lines : list string) (key : target_key)
    (idxs : list Z) : option Z :=
  match idxs with
  | [] => None
  | idx :: rest =>
      match last_declared lines key rest with
      | Some later => Some later
      | None =>
          match declaration lines idx with
          | Ok key' => if target_key_eq_dec key key' then Some idx else None
          | Raise _ => None
          end
      end
  end.



(** A configuration that declares chrome.exe at sliders 0 and 3. *)
Definition same_target_twice : World :=
  mkWorld (unlines ["0: chrome.exe"; "1: master"; "2: firefox.exe";
                    "3: chrome.exe"; "sliders: 4"])
          [system_sounds; chrome; firefox].

(** The text that [Control.__init__] writes when there is no configuration
    file (lines 10-45 of the source), line by line. *)
Definition dq : string := String (ascii_of_nat 34) EmptyString.

Definition default_mapping_txt : string :=
  unlines
    [""; "# Make sure this file is placed in the same directory as vc.exe. To make this startup on boot (for Windows), create a";
     "# shortcut and place it in the Start-up folder.";
     "";
     "# Application is either " ++ dq ++ "master" ++ dq
       ++ " for master volume, the application name " ++ dq ++ "spotify.exe"
       ++ dq ++ " (case insensitive) for Spotify";
     "# (for Windows, this can be found in Task Manager under the " ++ dq
       ++ "Details" ++ dq ++ " tab), " ++ dq ++ "unmapped" ++ dq
       ++ " for any and all applications";
     "# that are currently running, but have not been explicitly assigned a slider. "
       ++ dq ++ "unmapped" ++ dq ++ " excludes the master channel.";
     "# Finally, " ++ dq ++ "system" ++ dq
       ++ " allows you to control the system sound volume.";
     "";
     "# Stick to the syntax:";
     "#<number>:<application>";
     "# Here, number is the index";
     "0: master";
     "1: system";
     "2: chrome.exe";
     "3: spotify.exe";
     "4: unmapped";
     "";
     "# Find the device name when the sliders are connected to USB in Device Manager, so that when you switch USB ports,";
     "# you don't have to change the COM port.";
     "device name: Arduino Micro";
     "";
     "# Indicate the number of sliders you're using:";
     "sliders: 5";
     "# Port is only used if the device name can't be found automatically.";
     "port:COM8";
     "";
     "# Make sure this matches the baudrate on the Arduino's Serial.begin() call.";
     "baudrate:9600";
     "";
     "# You can use this to invert the sliders: top is low volume, bottom is high volume.";
     "inverted:False";
     "";
     "# Set this to true if you want system sounds included in 'unmapped' if system sounds aren't assigned anywhere else.";
     "system in unmapped:True";
     ""].

Definition spotify : AudioSession := mkAudioSession 3 (Some "Spotify.exe") "".

(** ** Further definitions *)

(** The first line that [get_setting] selects for [text], if any. *)
Definition first_match (text : string) (lines : list string) : option string :=
  find (fun x => Str.contains (text ++ ":") x) lines.

(** Whether some line holds [text + ":"]. *)
Definition has_key (lines : list string) (text : string) : bool :=
  existsb (fun x => Str.contains (text ++ ":") x) lines.

(** Whether some session is the system sounds session (line 114). *)
Definition has_system_session (found : list AudioSession) : bool :=
  existsb (fun session => Str.contains "SystemRoot" (DisplayName session)) found.

(** The last session of [found] whose process name, in lower case, is
    [name]: what the comprehension of lines 110-112 leaves under [name]. *)
Fixpoint last_with_name (name : string) (found : list AudioSession)
  : option AudioSession :=
  match found with
  | [] => None
  | session :: rest =>
      match last_with_name name rest with
      | Some later => Some later
      | None =>
          match Process session with
          | Some n => if string_dec name (Str.lower n) then Some session else None
          | None => None
          end
      end
  end.

(** The sessions that a tuple of names selects among the live sessions. *)
Definition group_members (found : list AudioSession) (apps : list string)
  : list AudioSession :=
  flat_map (fun app =>
              if is_category (Str.lower app) then []
              else match last_with_name (Str.lower app) found with
                   | Some session => [session]
                   | None => []
                   end) apps.

(** A configuration with a group of two names, one of them running. *)
Definition group_scenario : World :=
  mkWorld (unlines ["0: master"; "1: Unmapped"; "2: chrome.exe, discord.exe";
                    "3: vlc.exe"; "sliders: 4"])
          [system_sounds; chrome; firefox].

(** The converse of [claims_recorded]: every session of [mapped_sessions]
    is controlled by a stored target. *)
Definition claims_backed (st : dict Z SessionObject * list AudioSession)
  : Prop :=
  forall session,
    In session (snd st) ->
    exists idx app, In (idx, app) (fst st) /\ In session (claimed_by app).

(** A configuration whose [unmapped] slider leaves the system sounds out, with
    a system sounds session that has a process. *)
Definition audiodg : AudioSession :=
  mkAudioSession 7 (Some "audiodg.exe")
    "@%SystemRoot%\System32\AudioSrv.Dll,-202".

Definition toggle_scenario : World :=
  mkWorld (unlines ["0: chrome.exe"; "1: unmapped"; "sliders: 2";
                    "system in unmapped: FALSE"])
          [audiodg; chrome; firefox].

(** [Control.get_sessions] *)
Definition get_sessions (self : Control) : result (list SessionObject) :=
  match sessions self with
  | Some session_dict => Ok (dict_values session_dict)
  | None => Raise AttributeError
  end.

(** The slider index that an object of [sessions.py] was built with. *)
Definition idx_of (app : SessionObject) : Z :=
  match app with
  | Master idx => idx
  | System idx _ => idx
  | Session idx _ => idx
  | SessionGroup group_idx _ => group_idx
  end.

Section FindSession.

(** [session.name] of the classes of [sessions.py], which are outside the
    sources at hand: a parameter. *)
Variable name_of : SessionObject -> string.

(** Lines 175-183: the loop over [self.sessions.items()] and its [else]. *)
Fixpoint find_in (items : dict Z SessionObject) (session_name : string)
    (case_sensitive : bool) : option SessionObject :=
  match items with
  | [] => None
  | (idx, session) :: rest =>
      if negb case_sensitive then
        if String.eqb (Str.lower (name_of session)) (Str.lower session_name)
        then Some session
        else find_in rest session_name case_sensitive
      else
        if String.eqb (name_of session) session_name
        then Some session
        else find_in rest session_name case_sensitive
  end.

(** [Control.find_session] *)
Definition find_session (self : Control) (session_name : string)
    (case_sensitive : bool) : result (option SessionObject) :=
  match sessions self with
  | Some session_dict => Ok (find_in session_dict session_name case_sensitive)
  | None => Raise AttributeError
  end.

End FindSession.

(** Whether a volume lies between 0.0 and 1.0. *)
Definition in_unit_interval (volume : float) : bool :=
  (PrimFloat.leb 0 volume && PrimFloat.leb volume 1)%bool.

(** All the raw readings of the device, from 0 to 1023. *)
Definition device_readings : list Z := range 1024.

(** An instance of [session.name] for the examples: the process name of a
    single session, a fixed word for the other targets. *)
Definition example_name (app : SessionObject) : string :=
  match app with
  | Master _ => "Master"
  | System _ _ => "System"
  | Session _ session =>
      match Process session with
      | Some n => n
      | None => ""
      end
  | SessionGroup _ _ => "Group"
  end.

(** ** Start-up: [get_port] and [__init__] *)

(** The exceptions that reach the caller of [__init__]: those of the lookups
    and of the resolver, and [ValueError]. *)
Inductive init_exn : Type :=
| Lookup (e : exn)
| ValueError.

Inductive outcome (A : Type) : Type :=
| Done (a : A)
| Fail (e : init_exn).

Arguments Done {A} a.
Arguments Fail {A} e.

(** Lines 202-204: the loop over [sorted(ports)], each port a triple of its
    name, its description and its hardware id. *)
Fixpoint first_port (device_name : string)
    (sorted_ports : list (string * string * string)) : option string :=
  match sorted_ports with
  | [] => None
  | (port, desc, hwid) :: rest =>
      if Str.contains device_name desc then Some port
      else first_port device_name rest
  end.

(** [Control.get_port].  [sorted_ports] is [sorted(list_ports.comports())]:
    the ports of the machine in the order of pyserial's comparison, which is
    outside the sources.  The lookup of [device name] is outside the [try];
    the bare [except] turns any failure of the lookup of [port] into
    [ValueError]. *)
Definition get_port (lines : list string)
    (sorted_ports : list (string * string * string)) : outcome string :=
  match get_setting lines "device name" with
  | Raise e => Fail (Lookup e)
  | Ok device_name =>
      match first_port device_name sorted_ports with
      | Some port => Done port
      | None =>
          match get_setting lines "port" with
          | Ok port => Done port
          | Raise _ => Fail ValueError
          end
      end
  end.

(** The value of a decimal digit. *)
Definition digit_value (c : ascii) : option Z :=
  if Str.between 48 57 (Str.code c) then Some (Z.of_N (Str.code c) - 48)
  else None.

(** The digits of an integer literal, with single underscores between
    digits. *)
Fixpoint parse_digits (s : string) (acc : Z) (after_digit : bool) : option Z :=
  match s with
  | EmptyString => if after_digit then Some acc else None
  | String c t =>
      match digit_value c with
      | Some d => parse_digits t (10 * acc + d) true
      | None =>
          if (Ascii.eqb c "_" && after_digit)%bool
          then parse_digits t acc false
          else None
      end
  end.

(** [int(s)] on a string: white space around, an optional sign, decimal
    digits with single underscores between them; [None] stands for
    [ValueError].  Strings of more than 4300 digits, which recent versions of
    CPython refuse, are outside the model. *)
Definition py_int (s : string) : option Z :=
  match Str.strip s with
  | String "+" t => parse_digits t 0 false
  | String "-" t => option_map Z.opp (parse_digits t 0 false)
  | t => parse_digits t 0 false
  end.

(** What [__init__] finds around it: the text of the file at [self.path]
    ([None] when there is no such file), the serial ports in sorted order and
    the live audio sessions. *)
Record Machine : Type := mkMachine {
  file : option string;
  serial_ports : list (string * string * string);
  audio_sessions : list AudioSession
}.

(** Lines 56-59: the text of the file once [__init__] has made sure that it
    exists. *)
Definition ensure_config (file : option string) : string :=
  match file with
  | Some text => text
  | None => default_mapping_txt
  end.

(** [Control.__init__], lines 53-80.  The message box and the browser
    window opened for a new file are not modelled. *)
Definition init (machine : Machine) : outcome Control :=
  let text := ensure_config (file machine) in
  let w := mkWorld text (audio_sessions machine) in
  let lines := Str.split newline text in
  match get_setting lines "sliders" with
  | Raise e => Fail (Lookup e)
  | Ok setting =>
      match py_int setting with
      | None => Fail ValueError
      | Some sliders =>
          match get_port lines (serial_ports machine) with
          | Fail e => Fail e
          | Done port =>
              match get_setting lines "baudrate" with
              | Raise e => Fail (Lookup e)
              | Ok baudrate =>
                  match read_inverted lines with
                  | Raise e => Fail (Lookup e)
                  | Ok inverted =>
                      match get_mapping w
                              (mkControl lines sliders (Some port)
                                 (Some baudrate) inverted [] [] None None) with
                      | Ok self => Done self
                      | Raise e => Fail (Lookup e)
                      end
                  end
              end
          end
      end
  end.

(** A configuration that spells [master] and [system] in capitals, on a
    machine with two sessions that look like the system sounds. *)
Definition capitals_scenario : World :=
  mkWorld (unlines ["0: MASTER"; "1: System"; "sliders: 2"])
          [chrome; audiodg; system_sounds].

(** The scenario with the four declarations and nothing else, and the same
    with the number of sliders: neither has a [system in unmapped] line. *)
Definition scenario_as_declared : World :=
  mkWorld (unlines ["0: master"; "1: system"; "2: chrome.exe"; "3: unmapped"])
          [chrome; firefox; system_sounds].

Definition scenario_with_sliders : World :=
  mkWorld (unlines ["0: master"; "1: system"; "2: chrome.exe"; "3: unmapped";
                    "sliders: 4"])
          [chrome; firefox; system_sounds].


(** * Properties *)

(** ** The primitives on examples *)

Example str_examples :
  Str.strip "  chrome.exe " = "chrome.exe"
  /\ Str.strip "   " = ""
  /\ Str.split comma "a, b,c" = ["a"; " b"; "c"]
  /\ Str.split colon "port" = ["port"]
  /\ Str.lower "Chrome.EXE" = "chrome.exe"
  /\ Str.contains "0:" "10: discord.exe" = true
  /\ Str.contains "SystemRoot" "@%SystemRoot%\System32\AudioSrv.Dll,-202" = true
  /\ Str.of_int 0 = "0" /\ Str.of_int 12 = "12" /\ Str.of_int (-3) = "-3".
Proof. repeat split; reflexivity. Qed.

Example py_index_examples :
  py_index [10; 20; 30] 1 = Ok 20
  /\ py_index [10; 20; 30] (-1) = Ok 30
  /\ py_index [10; 20; 30] 3 = Raise IndexError
  /\ py_index [10; 20; 30] (-4) = Raise IndexError.
Proof. repeat split; reflexivity. Qed.

Example dict_examples :
  dict_set string_dec "a" 3 [("a", 1); ("b", 2)] = [("a", 3); ("b", 2)]
  /\ dict_set string_dec "c" 3 [("a", 1); ("b", 2)]
     = [("a", 1); ("b", 2); ("c", 3)].
Proof. split; reflexivity. Qed.

(** The settings of the default configuration, and its resolution against
    the system sounds, chrome.exe, firefox.exe and Spotify.exe. *)
Example default_mapping_settings :
  let lines := Str.split newline default_mapping_txt in
  get_setting lines "sliders" = Ok "5"
  /\ get_setting lines "device name" = Ok "Arduino Micro"
  /\ get_setting lines "port" = Ok "COM8"
  /\ get_setting lines "baudrate" = Ok "9600"
  /\ get_setting lines "system in unmapped" = Ok "True"
  /\ get_setting lines "flavour" = Raise IndexError
  /\ read_inverted lines = Ok false.
Proof. vm_compute. repeat split; reflexivity. Qed.

Example default_mapping_resolution :
  match get_mapping
          (mkWorld default_mapping_txt [system_sounds; chrome; firefox; spotify])
          (blank 5 false) with
  | Ok self =>
      target_idxs self =
      [(KStr "master", 0); (KStr "system", 1); (KStr "chrome.exe", 2);
       (KStr "spotify.exe", 3); (KStr "unmapped", 4)]
      /\ sessions self =
         Some [(0, Master 0); (1, System 1 system_sounds);
               (2, Session 2 chrome); (3, Session 3 spotify);
               (4, SessionGroup 4 [firefox])]
  | Raise _ => False
  end.
Proof. vm_compute. split; reflexivity. Qed.


(** ** Results and indexing *)

Lemma bind_ok {A B : Type} (r : result A) (k : A -> result B) (b : B) :
  bind r k = Ok b -> exists a, r = Ok a /\ k a = Ok b.
Proof.
  destruct r as [a | e]; simpl; intros H.
  - exists a. split; [reflexivity | exact H].
  - discriminate H.
Qed.

Lemma py_index_in_range {A : Type} (l : list A) (i : Z) (d : A) :
  0 <= i < Z.of_nat (List.length l) ->
  py_index l i = Ok (nth (Z.to_nat i) l d).
Proof.
  intros [Hlo Hhi]. unfold py_index.
  destruct (Z.ltb_spec i 0) as [Hneg | _]; [lia |].
  destruct (Z.leb_spec 0 i) as [_ | Hneg]; [| lia].
  destruct (Z.ltb_spec i (Z.of_nat (List.length l))) as [_ | Hbig]; [| lia].
  simpl. destruct (nth_error l (Z.to_nat i)) as [a |] eqn:E.
  - f_equal. symmetry. apply nth_error_nth. exact E.
  - apply nth_error_None in E. lia.
Qed.

Lemma py_index_head {A : Type} (a : A) (l : list A) :
  py_index (a :: l) 0 = Ok a.
Proof.
  rewrite (py_index_in_range (a :: l) 0 a); [reflexivity |].
  simpl List.length. lia.
Qed.

Lemma py_index_nil {A : Type} (i : Z) : py_index (@nil A) i = Raise IndexError.
Proof.
  unfold py_index. simpl.
  destruct (i <? 0) eqn:E.
  - rewrite Z.add_0_r. apply Z.ltb_lt in E.
    destruct (Z.leb_spec 0 i); [lia | reflexivity].
  - destruct (0 <=? i); [| reflexivity].
    apply Z.ltb_ge in E. destruct (Z.ltb_spec i 0); [lia | reflexivity].
Qed.

Lemma py_index_raises {A : Type} (l : list A) (i : Z) (e : exn) :
  py_index l i = Raise e -> e = IndexError.
Proof.
  unfold py_index.
  destruct ((0 <=? _) && _)%bool; [| congruence].
  destruct (nth_error _ _); congruence.
Qed.

(** ** The dispatcher *)

Section DispatcherFacts.

Variable Mixer : Type.
Variable app_set_volume :
  SessionObject -> float -> Mixer -> Mixer * result unit.

Let run := dispatch Mixer app_set_volume.

(** The loop over a concatenation runs the first part, and the second one
    only when the first returned. *)
Lemma dispatch_app (inv : bool) (values : list Z)
    (before after : dict Z SessionObject) (m : Mixer) :
  run inv values (before ++ after)%list m =
  match run inv values before m with
  | (m1, Ok _) => run inv values after m1
  | (m1, Raise e) => (m1, Raise e)
  end.
Proof.
  revert m. induction before as [| [index app] before IH]; intros m.
  - reflexivity.
  - simpl. destruct (py_index values index) as [reading | e]; [| reflexivity].
    destruct (app_set_volume app (normalize inv reading) m) as [m' [[] | e]].
    + apply IH.
    + reflexivity.
Qed.

End DispatcherFacts.

Lemma dispatch_record_call (inv : bool) (values : list Z)
    (items : dict Z SessionObject) (log : call_log) :
  Forall (fun item => 0 <= fst item < Z.of_nat (List.length values)) items ->
  dispatch call_log record_call inv values items log =
  ((log ++ map (fun item =>
                  (snd item, normalize inv (reading_at values (fst item))))
               items)%list, Ok tt).
Proof.
  intros Hrange. revert log.
  induction Hrange as [| [index app] items Hhead _ IH]; intros log.
  - simpl. rewrite app_nil_r. reflexivity.
  - simpl in *. rewrite (py_index_in_range values index 0 Hhead).
    rewrite IH. rewrite <- app_assoc. reflexivity.
Qed.

(** C5.  Every bound slider gets exactly one call, with the volume
    [values[index] / 1023], or [1 - values[index] / 1023] when the object is
    inverted (for a batch that has a reading for every bound slider, each
    reading within the range in which [true_div] is Python's division).  A
    reading of 1023 gives 1.0 and a reading of 0 gives 0.0, the other way round
    when inverted, and the batch [512, 1023, 0] on an inverted object with
    three bound sliders applies [1 - 512/1023], 0.0 and 1.0. *)
Theorem set_volume_normalizes :
  (forall (self : Control) (session_dict : dict Z SessionObject)
          (values : list Z),
      sessions self = Some session_dict ->
      Forall (fun item => 0 <= fst item < Z.of_nat (List.length values))
             session_dict ->
      Forall (fun reading => Z.abs reading <= 2 ^ 53) values ->
      set_volume call_log record_call self values [] =
      (map (fun item =>
              (snd item,
               if inverted self
               then PrimFloat.sub 1 (true_div (reading_at values (fst item)) 1023)
               else true_div (reading_at values (fst item)) 1023))
           session_dict, Ok tt))
  /\ true_div 1023 1023 = 1%float
  /\ true_div 0 1023 = 0%float
  /\ normalize false 1023 = 1%float
  /\ normalize false 0 = 0%float
  /\ normalize true 1023 = 0%float
  /\ normalize true 0 = 1%float
  /\ (forall (self : Control) (a b c : SessionObject),
        let self' :=
          mkControl (lines self) (sliders self) (port self) (baudrate self)
            true (unmapped self) (target_idxs self)
            (found_pycaw_sessions self) (Some [(0, a); (1, b); (2, c)]) in
        set_volume call_log record_call self' [512; 1023; 0] [] =
        ([(a, PrimFloat.sub 1 (PrimFloat.div 512 1023));
          (b, 0%float); (c, 1%float)], Ok tt)).
Proof.
  split; [| repeat split; try reflexivity].
  - intros self session_dict values Hsessions Hrange _.
    unfold set_volume. rewrite Hsessions.
    rewrite (dispatch_record_call _ _ _ [] Hrange). reflexivity.
Qed.

Lemma set_volume_normalizes_witness :
  set_volume call_log record_call
    (mkControl [] 2 None None false [] [] None
       (Some [(1, Master 1); (0, Session 0 chrome)])) [1023; 300] [] =
  ([(Master 1, true_div 300 1023); (Session 0 chrome, true_div 1023 1023)],
   Ok tt).
Proof.
  apply (proj1 set_volume_normalizes
           (mkControl [] 2 None None false [] [] None
              (Some [(1, Master 1); (0, Session 0 chrome)]))
           [(1, Master 1); (0, Session 0 chrome)] [1023; 300]).
  - reflexivity.
  - repeat (constructor; [simpl; lia |]). constructor.
  - repeat (constructor; [simpl; lia |]). constructor.
Defined.

(** C4, as the code has it.  [Control.set_volume] catches nothing: when the
    call on one bound target raises, after the targets before it in the
    table were served, the exception reaches the caller of
    [Control.set_volume] and the mixer is left as that call left it; no
    target that follows in the table receives a call. *)
Theorem set_volume_stops_at_first_failure :
  forall (Mixer : Type)
         (app_set_volume : SessionObject -> float -> Mixer -> Mixer * result unit)
         (self : Control) (before after : dict Z SessionObject)
         (index : Z) (app : SessionObject) (values : list Z) (reading : Z)
         (m m1 m2 : Mixer) (e : exn),
    sessions self = Some (before ++ (index, app) :: after)%list ->
    dispatch Mixer app_set_volume (inverted self) values before m = (m1, Ok tt) ->
    py_index values index = Ok reading ->
    app_set_volume app (normalize (inverted self) reading) m1 = (m2, Raise e) ->
    set_volume Mixer app_set_volume self values m = (m2, Raise e).
Proof.
  intros Mixer app_set_volume self before after index app values reading
         m m1 m2 e Hsessions Hbefore Hreading Hcall.
  unfold set_volume. rewrite Hsessions, dispatch_app, Hbefore.
  simpl. rewrite Hreading, Hcall. reflexivity.
Qed.

Lemma set_volume_stops_at_first_failure_witness :
  set_volume call_log (stale_call 1)
    (mkControl [] 3 None None false [] [] None
       (Some [(0, Master 0); (1, Session 1 chrome); (2, Session 2 firefox)]))
    [10; 20; 30] [] =
  ([(Master 0, true_div 10 1023)], Raise VolumeSetError).
Proof.
  apply (set_volume_stops_at_first_failure call_log (stale_call 1)
           (mkControl [] 3 None None false [] [] None
              (Some [(0, Master 0); (1, Session 1 chrome);
                     (2, Session 2 firefox)]))
           [(0, Master 0)] [(2, Session 2 firefox)] 1 (Session 1 chrome)
           [10; 20; 30] 20 [] [(Master 0, true_div 10 1023)]
           [(Master 0, true_div 10 1023)] VolumeSetError).
  - reflexivity.
  - reflexivity.
  - reflexivity.
  - reflexivity.
Defined.

(** C4 fails as stated: with the handle of chrome.exe stale, the batch
    [512, 1023] on the table {0: chrome.exe, 1: master} ends in
    [VolumeSetError] at the caller, and the master volume is never set. *)
Lemma set_volume_aborts_batch :
  let outcome :=
    set_volume call_log (stale_call 1)
      (mkControl [] 2 None None false [] [] None
         (Some [(0, Session 0 chrome); (1, Master 1)])) [512; 1023] [] in
  snd outcome = Raise VolumeSetError
  /\ ~ In (Master 1) (map fst (fst outcome)).
Proof.
  simpl. split; [reflexivity | intros []].
Qed.

(** ** The configuration lookup *)

Lemma split_nonempty (sep : ascii) (s : string) :
  (1 <= List.length (Str.split sep s))%nat.
Proof.
  induction s as [| c t IH]; simpl.
  - lia.
  - destruct (Ascii.eqb c sep); simpl; [lia |].
    destruct (Str.split sep t); simpl in *; lia.
Qed.

Lemma split_has_char (sep : ascii) (s : string) :
  has_char sep s = true -> (2 <= List.length (Str.split sep s))%nat.
Proof.
  induction s as [| c t IH]; simpl; [discriminate |].
  destruct (Ascii.eqb c sep); simpl; intros H.
  - pose proof (split_nonempty sep t). lia.
  - specialize (IH H). destruct (Str.split sep t); simpl in *; lia.
Qed.

Lemma has_char_append (c : ascii) (a b : string) :
  has_char c (a ++ b) = (has_char c a || has_char c b)%bool.
Proof.
  induction a as [| x a IH]; simpl.
  - reflexivity.
  - rewrite IH. apply orb_assoc.
Qed.

Lemma prefix_has_char (c : ascii) (needle s : string) :
  has_char c needle = true -> String.prefix needle s = true ->
  has_char c s = true.
Proof.
  revert s. induction needle as [| x needle IH]; simpl; [discriminate |].
  intros [| y s]; [discriminate |]. simpl.
  destruct (ascii_dec x y) as [-> | _]; [| discriminate].
  intros Hc Hp. destruct (Ascii.eqb y c); [reflexivity |].
  simpl in *. apply IH; assumption.
Qed.

Lemma contains_has_char (c : ascii) (needle s : string) :
  has_char c needle = true -> Str.contains needle s = true ->
  has_char c s = true.
Proof.
  intros Hc. induction s as [| y s IH]; simpl; intros H.
  - rewrite orb_false_r in H. apply (prefix_has_char c needle ""); assumption.
  - apply orb_true_iff in H. destruct H as [H | H].
    + apply (prefix_has_char c needle (String y s)); assumption.
    + rewrite (IH H). apply orb_true_r.
Qed.

Lemma matching_lines_first (text : string) (pre post : list string)
    (line : string) :
  (forall x, In x pre -> Str.contains (text ++ ":") x = false) ->
  Str.contains (text ++ ":") line = true ->
  matching_lines text (pre ++ line :: post) =
  line :: matching_lines text post.
Proof.
  intros Hpre Hline. unfold matching_lines.
  induction pre as [| x pre IH]; simpl.
  - rewrite Hline. reflexivity.
  - rewrite (Hpre x (or_introl eq_refl)). apply IH.
    intros y Hy. apply Hpre. right. exact Hy.
Qed.

(** The lookup returns the value of the first line that contains the key,
    whatever follows that line. *)
Lemma get_setting_first (text : string) (pre post : list string)
    (line : string) :
  (forall x, In x pre -> Str.contains (text ++ ":") x = false) ->
  Str.contains (text ++ ":") line = true ->
  get_setting (pre ++ line :: post) text = Ok (value_of_line line).
Proof.
  intros Hpre Hline. unfold get_setting.
  rewrite (matching_lines_first text pre post line Hpre Hline).
  rewrite py_index_head. simpl.
  assert (Hlen : (2 <= List.length (Str.split colon line))%nat).
  { apply split_has_char. apply (contains_has_char colon (text ++ ":")).
    - rewrite has_char_append. simpl. apply orb_true_r.
    - exact Hline. }
  rewrite (py_index_in_range (Str.split colon line) 1 "").
  - reflexivity.
  - lia.
Qed.


Lemma get_setting_raises (lines : list string) (text : string) (e : exn) :
  get_setting lines text = Raise e -> e = IndexError.
Proof.
  unfold get_setting.
  destruct (py_index (matching_lines text lines) 0) as [setting |] eqn:E1; simpl.
  - destruct (py_index (Str.split colon setting) 1) eqn:E2; simpl.
    + discriminate.
    + intros H. injection H as <-. exact (py_index_raises _ _ _ E2).
  - intros H. injection H as <-. exact (py_index_raises _ _ _ E1).
Qed.

(** C7, as the code has it.  When a slider index is declared on two lines
    with different targets, the lookup is a function of the text and never
    rejects it: the slider takes the target of the first line that contains
    [<index>:], whatever the later line declares. *)
Theorem first_declaration_wins :
  forall (idx : Z) (pre mid post : list string) (first second : string),
    (forall x, In x pre -> Str.contains (Str.of_int idx ++ ":") x = false) ->
    Str.contains (Str.of_int idx ++ ":") first = true ->
    Str.contains (Str.of_int idx ++ ":") second = true ->
    value_of_line first <> value_of_line second ->
    get_setting (pre ++ first :: mid ++ second :: post)%list (Str.of_int idx)
    = Ok (value_of_line first)
    /\ declaration (pre ++ first :: mid ++ second :: post)%list idx
       = Ok (key_of_value (value_of_line first)).
Proof.
  intros idx pre mid post first second Hpre Hfirst _ _.
  assert (H : get_setting (pre ++ first :: mid ++ second :: post)%list
                (Str.of_int idx) = Ok (value_of_line first))
    by (apply get_setting_first; assumption).
  split; [exact H |].
  unfold declaration. rewrite H. reflexivity.
Qed.

Lemma first_declaration_wins_witness :
  get_setting ["sliders: 1"; "0: chrome.exe"; "# note"; "0: firefox.exe"] "0"
  = Ok "chrome.exe"
  /\ declaration ["sliders: 1"; "0: chrome.exe"; "# note"; "0: firefox.exe"] 0
     = Ok (KStr "chrome.exe").
Proof.
  apply (first_declaration_wins 0 ["sliders: 1"] ["# note"] []
           "0: chrome.exe" "0: firefox.exe").
  - intros x [<- | []]. reflexivity.
  - reflexivity.
  - reflexivity.
  - discriminate.
Defined.

(** C7 fails as stated: slider 0 declared as chrome.exe and then as
    firefox.exe, both running, is neither rejected nor bound to firefox.exe;
    it is bound to chrome.exe. *)
Lemma last_declaration_does_not_win :
  match get_mapping declared_twice (blank 1 false) with
  | Ok self =>
      sessions self = Some [(0, Session 0 chrome)]
      /\ sessions self <> Some [(0, Session 0 firefox)]
  | Raise _ => False
  end.
Proof.
  vm_compute. split; [reflexivity | discriminate].
Qed.

(** C9, as the code has it.  The sliders are inverted exactly when the value
    of [inverted] is spelled [True] or [true]; any other spelling, among them
    the other casings of [true] and every casing of [false], leaves them not
    inverted. *)
Theorem read_inverted_two_spellings :
  forall (lines : list string) (setting : string),
    get_setting lines "inverted" = Ok setting ->
    (read_inverted lines = Ok true <-> setting = "True" \/ setting = "true")
    /\ (read_inverted lines = Ok false <->
        setting <> "True" /\ setting <> "true")
    /\ (Str.lower setting = "false" -> read_inverted lines = Ok false).
Proof.
  intros lines setting Hsetting. unfold read_inverted. rewrite Hsetting.
  simpl. rewrite orb_false_r.
  destruct (String.eqb_spec setting "True") as [-> | Hne1];
    [| destruct (String.eqb_spec setting "true") as [-> | Hne2]]; simpl;
    repeat split; intros;
    try match goal with
        | H : Str.lower _ = _ |- _ => vm_compute in H; discriminate H
        end;
    try reflexivity; try discriminate; intuition congruence.
Qed.

Lemma read_inverted_two_spellings_witness :
  (read_inverted ["sliders: 5"; "inverted: True"] = Ok true <->
   "True" = "True" \/ "True" = "true")
  /\ (read_inverted ["sliders: 5"; "inverted: True"] = Ok false <->
      "True" <> "True" /\ "True" <> "true")
  /\ (Str.lower "True" = "false" ->
      read_inverted ["sliders: 5"; "inverted: True"] = Ok false).
Proof.
  apply (read_inverted_two_spellings ["sliders: 5"; "inverted: True"] "True").
  reflexivity.
Defined.

(** C9 fails as stated: [TRUE] is a casing of [true], and a configuration
    with [inverted:TRUE] is read as not inverted. *)
Lemma read_inverted_upper_case :
  Str.lower "TRUE" = "true" /\ read_inverted ["inverted:TRUE"] = Ok false.
Proof.
  split; reflexivity.
Qed.

(** ** Dictionaries *)

Section DictFacts.

Context {K V : Type}.
Variable K_eq_dec : forall x y : K, {x = y} + {x <> y}.

Let get := @dict_get K V K_eq_dec.
Let set := @dict_set K V K_eq_dec.

Lemma dict_get_set_same (k : K) (v : V) (d : dict K V) :
  get k (set k v d) = Some v.
Proof.
  induction d as [| [k' v'] d IH]; simpl.
  - destruct (K_eq_dec k k); [reflexivity | contradiction].
  - destruct (K_eq_dec k k') as [E | N]; simpl.
    + destruct (K_eq_dec k k'); [reflexivity | contradiction].
    + destruct (K_eq_dec k k'); [contradiction | exact IH].
Qed.

Lemma dict_get_set_other (k k' : K) (v : V) (d : dict K V) :
  k' <> k -> get k' (set k v d) = get k' d.
Proof.
  intros Hne. induction d as [| [k0 v0] d IH]; simpl.
  - destruct (K_eq_dec k' k); [contradiction | reflexivity].
  - destruct (K_eq_dec k k0) as [E | N]; simpl.
    + destruct (K_eq_dec k' k0); [subst; contradiction | reflexivity].
    + destruct (K_eq_dec k' k0); [reflexivity | exact IH].
Qed.

Lemma dict_get_In (k : K) (v : V) (d : dict K V) :
  get k d = Some v -> In (k, v) d.
Proof.
  induction d as [| [k' v'] d IH]; simpl; [discriminate |].
  destruct (K_eq_dec k k') as [<- | N].
  - intros H. injection H as ->. left. reflexivity.
  - intros H. right. exact (IH H).
Qed.

Lemma dict_get_key (k : K) (d : dict K V) :
  In k (dict_keys d) -> exists v, get k d = Some v.
Proof.
  induction d as [| [k' v'] d IH]; simpl; [intros [] |].
  destruct (K_eq_dec k k') as [E | N].
  - intros _. exists v'. reflexivity.
  - intros [E | H]; [symmetry in E; contradiction | exact (IH H)].
Qed.

Lemma dict_get_not_key (k : K) (d : dict K V) :
  ~ In k (dict_keys d) -> get k d = None.
Proof.
  induction d as [| [k' v'] d IH]; simpl; [reflexivity |].
  intros H. destruct (K_eq_dec k k') as [E | N].
  - exfalso. apply H. left. symmetry. exact E.
  - apply IH. intros Hin. apply H. right. exact Hin.
Qed.

(** An entry of the dictionary after [d[k] = v] is the new one or an old
    one. *)
Lemma dict_set_In (k k' : K) (v v' : V) (d : dict K V) :
  In (k', v') (set k v d) -> (k' = k /\ v' = v) \/ In (k', v') d.
Proof.
  induction d as [| [k0 v0] d IH]; simpl.
  - intros [E | []]. injection E as <- <-. left. split; reflexivity.
  - destruct (K_eq_dec k k0) as [<- | N]; simpl.
    + intros [E | H]; [injection E as <- <-; left; split; reflexivity |].
      right. right. exact H.
    + intros [E | H]; [right; left; exact E |].
      destruct (IH H) as [Hnew | Hold]; [left; exact Hnew |].
      right. right. exact Hold.
Qed.

Lemma dict_set_keys (k k' : K) (v : V) (d : dict K V) :
  In k' (dict_keys (set k v d)) <-> k' = k \/ In k' (dict_keys d).
Proof.
  induction d as [| [k0 v0] d IH]; simpl.
  - split; [intros [E | []]; left; symmetry; exact E |].
    intros [E | []]. left. symmetry. exact E.
  - destruct (K_eq_dec k k0) as [<- | N]; simpl.
    + split; [intros H; right; exact H |].
      intros [-> | H]; [left; reflexivity | exact H].
    + rewrite IH. tauto.
Qed.

Lemma dict_set_values (k : K) (v v' : V) (d : dict K V) :
  In v' (dict_values (set k v d)) -> v' = v \/ In v' (dict_values d).
Proof.
  intros H. apply in_map_iff in H. destruct H as [[k0 v0] [E H]].
  simpl in E. subst v0. apply dict_set_In in H.
  destruct H as [[_ E] | H]; [left; exact E |].
  right. apply in_map_iff. exists (k0, v'). split; [reflexivity | exact H].
Qed.

Lemma dict_set_keys_NoDup (k : K) (v : V) (d : dict K V) :
  NoDup (dict_keys d) -> NoDup (dict_keys (set k v d)).
Proof.
  induction d as [| [k0 v0] d IH]; simpl; intros H.
  - constructor; [intros [] | constructor].
  - destruct (K_eq_dec k k0) as [E | N]; simpl; [exact H |].
    inversion H as [| ? ? Hnot Hrest]; subst. constructor.
    + intros Hin. apply dict_set_keys in Hin.
      destruct Hin as [E | Hin]; [symmetry in E |]; contradiction.
    + exact (IH Hrest).
Qed.

(** With distinct keys, an entry is what [get] finds. *)
Lemma dict_In_get (k : K) (v : V) (d : dict K V) :
  NoDup (dict_keys d) -> In (k, v) d -> get k d = Some v.
Proof.
  induction d as [| [k0 v0] d IH]; simpl; intros Hnd; [intros [] |].
  inversion Hnd as [| ? ? Hnot Hrest]; subst.
  intros [E | H].
  - injection E as -> ->. destruct (K_eq_dec k k); [reflexivity | contradiction].
  - destruct (K_eq_dec k k0) as [<- | N]; [| exact (IH Hrest H)].
    exfalso. apply Hnot. apply in_map_iff. exists (k, v).
    split; [reflexivity | exact H].
Qed.

End DictFacts.

(** ** The loops of the resolver *)

Lemma range_bounds (n i : Z) : In i (range n) -> 0 <= i < n.
Proof.
  unfold range. intros H. apply in_map_iff in H.
  destruct H as [k [<- H]]. apply in_seq in H. lia.
Qed.

Lemma range_In (n i : Z) : 0 <= i < n -> In i (range n).
Proof.
  intros H. unfold range. apply in_map_iff. exists (Z.to_nat i).
  split; [lia |]. apply in_seq. lia.
Qed.

Lemma range_NoDup (n : Z) : NoDup (range n).
Proof.
  unfold range. apply Injective_map_NoDup.
  - intros a b H. lia.
  - apply seq_NoDup.
Qed.

Lemma declaration_raises (lines : list string) (idx : Z) (e : exn) :
  declaration lines idx = Raise e -> e = IndexError.
Proof.
  unfold declaration.
  destruct (get_setting lines (Str.of_int idx)) eqn:E; simpl; [discriminate |].
  intros H. injection H as <-. exact (get_setting_raises _ _ _ E).
Qed.

Lemma read_target_idxs_raises (lines : list string) (idxs : list Z)
    (acc : dict target_key Z) (e : exn) :
  read_target_idxs lines idxs acc = Raise e -> e = IndexError.
Proof.
  revert acc. induction idxs as [| idx idxs IH]; intros acc; simpl.
  - discriminate.
  - destruct (declaration lines idx) eqn:E; simpl.
    + apply IH.
    + intros H. injection H as <-. exact (declaration_raises _ _ _ E).
Qed.

(** Every value of the table is a slider index that the loop visited. *)
Lemma read_target_idxs_values (lines : list string) (idxs : list Z)
    (acc d : dict target_key Z) (v : Z) :
  read_target_idxs lines idxs acc = Ok d ->
  In v (dict_values d) -> In v (dict_values acc) \/ In v idxs.
Proof.
  revert acc. induction idxs as [| idx idxs IH]; intros acc; simpl.
  - intros H. injection H as <-. intros Hv. left. exact Hv.
  - destruct (declaration lines idx) as [key |]; simpl; [| discriminate].
    intros H Hv. destruct (IH _ H Hv) as [Hacc | Hrest].
    + apply dict_set_values in Hacc. destruct Hacc as [-> | Hacc].
      * right. left. reflexivity.
      * left. exact Hacc.
    + right. right. exact Hrest.
Qed.

(** Every declaration that the loop read is a key of the table. *)
Lemma read_target_idxs_keys (lines : list string) (idxs : list Z)
    (acc d : dict target_key Z) (key : target_key) :
  read_target_idxs lines idxs acc = Ok d ->
  In key (dict_keys acc)
  \/ (exists idx, In idx idxs /\ declaration lines idx = Ok key) ->
  In key (dict_keys d).
Proof.
  revert acc. induction idxs as [| idx idxs IH]; intros acc; simpl.
  - intros H. injection H as <-. intros [Hk | [idx [[] _]]]. exact Hk.
  - destruct (declaration lines idx) as [key0 |] eqn:E; simpl; [| discriminate].
    intros H Hk. apply (IH _ H).
    destruct Hk as [Hk | [idx' [[<- | Hin] Hd]]].
    + left. apply dict_set_keys. right. exact Hk.
    + left. apply dict_set_keys. left. congruence.
    + right. exists idx'. split; assumption.
Qed.

Lemma collect_group_spec (active_sessions : dict string AudioSession)
    (target : list string) (in_group mapped : list AudioSession) :
  collect_group active_sessions target in_group mapped =
  ((in_group ++ group_hits active_sessions target)%list,
   (mapped ++ group_hits active_sessions target)%list).
Proof.
  revert in_group mapped.
  induction target as [| target_app rest IH]; intros in_group mapped; simpl.
  - rewrite !app_nil_r. reflexivity.
  - destruct (is_category (Str.lower target_app)); [apply IH |].
    destruct (dict_get string_dec (Str.lower target_app) active_sessions).
    + rewrite IH, <- !app_assoc. reflexivity.
    + apply IH.
Qed.

(** One turn of the loop stores the bound target, if there is one, and
    appends the sessions it controls to [mapped_sessions]. *)
Lemma resolve_item_spec (active_sessions : dict string AudioSession)
    (system_session : AudioSession) (session_dict : dict Z SessionObject)
    (mapped_sessions : list AudioSession) (target : target_key) (idx : Z) :
  resolve_item active_sessions system_session (session_dict, mapped_sessions)
    (target, idx) =
  (match bound_target active_sessions system_session target idx with
   | Some app => dict_set Z.eq_dec idx app session_dict
   | None => session_dict
   end,
   (mapped_sessions ++
    claimed_by_option
      (bound_target active_sessions system_session target idx))%list).
Proof.
  destruct target as [target | target]; simpl.
  - destruct (String.eqb (Str.lower target) "master"); simpl;
      [rewrite app_nil_r; reflexivity |].
    destruct (String.eqb (Str.lower target) "system"); simpl; [reflexivity |].
    destruct (String.eqb (Str.lower target) "unmapped"); simpl;
      [rewrite app_nil_r; reflexivity |].
    destruct (dict_get string_dec (Str.lower target) active_sessions); simpl;
      [reflexivity | rewrite app_nil_r; reflexivity].
  - rewrite collect_group_spec. simpl.
    destruct (group_hits active_sessions target); simpl;
      [rewrite app_nil_r; reflexivity | reflexivity].
Qed.

Section ResolveItems.

Variable active_sessions : dict string AudioSession.
Variable system_session : AudioSession.

Let step := resolve_item active_sessions system_session.

(** The loop writes no key other than the slider indices of the table. *)
Lemma resolve_items_keys (items : dict target_key Z)
    (st : dict Z SessionObject * list AudioSession) (key : Z) :
  In key (dict_keys (fst (fold_left step items st))) ->
  In key (dict_keys (fst st)) \/ In key (dict_values items).
Proof.
  revert st. induction items as [| [target idx] items IH]; intros st; simpl.
  - intros H. left. exact H.
  - intros H. destruct (IH _ H) as [Hst | Hrest].
    + destruct st as [sd m]. unfold step in Hst.
      rewrite resolve_item_spec in Hst. simpl in Hst.
      destruct (bound_target _ _ _ _).
      * apply dict_set_keys in Hst. destruct Hst as [-> | Hst].
        -- right. left. reflexivity.
        -- left. exact Hst.
      * left. exact Hst.
    + right. right. exact Hrest.
Qed.

Lemma resolve_item_claims (st : dict Z SessionObject * list AudioSession)
    (item : target_key * Z) :
  claims_recorded st -> claims_recorded (step st item).
Proof.
  destruct st as [sd m]. destruct item as [target idx].
  unfold step. rewrite resolve_item_spec.
  intros Hinv idx' app session Hin Hclaimed. simpl in *.
  apply in_or_app.
  destruct (bound_target active_sessions system_session target idx)
    as [new |]; simpl.
  - apply dict_set_In in Hin. destruct Hin as [[_ ->] | Hin].
    + right. exact Hclaimed.
    + left. exact (Hinv idx' app session Hin Hclaimed).
  - left. exact (Hinv idx' app session Hin Hclaimed).
Qed.

Lemma resolve_items_claims (items : dict target_key Z)
    (st : dict Z SessionObject * list AudioSession) :
  claims_recorded st -> claims_recorded (fold_left step items st).
Proof.
  revert st. induction items as [| item items IH]; intros st Hinv; simpl.
  - exact Hinv.
  - apply IH. apply resolve_item_claims. exact Hinv.
Qed.

End ResolveItems.

Lemma list_remove_incl (ses x : AudioSession) (l : list AudioSession) :
  In x (list_remove ses l) -> In x l.
Proof.
  induction l as [| y l IH]; simpl; [intros [] |].
  destruct (AudioSession_eq_dec ses y).
  - intros H. right. exact H.
  - intros [-> | H]; [left; reflexivity | right; exact (IH H)].
Qed.

Lemma not_mapped_spec (active_sessions : dict string AudioSession)
    (mapped_sessions : list AudioSession) (ses : AudioSession) :
  In ses (not_mapped active_sessions mapped_sessions) <->
  In ses (dict_values active_sessions) /\ ~ In ses mapped_sessions.
Proof.
  unfold not_mapped, session_in. rewrite filter_In.
  destruct (in_dec AudioSession_eq_dec ses mapped_sessions); simpl.
  - split; [intros [_ H]; discriminate | tauto].
  - tauto.
Qed.

(** The pieces of a pass that returned. *)
Lemma get_mapping_ok (w : World) (self self' : Control) :
  get_mapping w self = Ok self' ->
  exists (table : dict target_key Z) (system_session : AudioSession)
         (session_dict : dict Z SessionObject),
    read_target_idxs (Str.split newline (config_text w))
      (range (sliders self)) [] = Ok table
    /\ find_system_session (live_sessions w) = Ok system_session
    /\ resolve_unmapped (Str.split newline (config_text w))
         (build_active_sessions (live_sessions w) []) system_session table
         (resolve_items (build_active_sessions (live_sessions w) [])
            system_session table) = Ok session_dict
    /\ target_idxs self' = table
    /\ sessions self' = Some session_dict
    /\ sliders self' = sliders self
    /\ inverted self' = inverted self.
Proof.
  unfold get_mapping. simpl. intros H.
  apply bind_ok in H. destruct H as [table [Ht H]].
  apply bind_ok in H. destruct H as [sys [Hs H]].
  apply bind_ok in H. destruct H as [sd [Hu H]].
  injection H as <-. exists table, sys, sd. simpl. repeat split; assumption.
Qed.

Lemma resolve_unmapped_ok (lines : list string)
    (active_sessions : dict string AudioSession)
    (system_session : AudioSession) (table : dict target_key Z)
    (st : dict Z SessionObject * list AudioSession)
    (session_dict : dict Z SessionObject) :
  resolve_unmapped lines active_sessions system_session table st
  = Ok session_dict ->
  (dict_get target_key_eq_dec (KStr "unmapped") table = None
   /\ session_dict = fst st)
  \/ (exists unmapped_idx setting,
        dict_get target_key_eq_dec (KStr "unmapped") table = Some unmapped_idx
        /\ get_setting lines "system in unmapped" = Ok setting
        /\ session_dict =
           dict_set Z.eq_dec unmapped_idx
             (SessionGroup unmapped_idx
                (unmapped_members active_sessions system_session (snd st)
                   setting))
             (fst st)).
Proof.
  destruct st as [sd m]. unfold resolve_unmapped. simpl.
  destruct (dict_get target_key_eq_dec (KStr "unmapped") table) as [u |].
  - intros H. apply bind_ok in H. destruct H as [setting [Hs H]].
    injection H as <-. right. exists u, setting.
    repeat split; [exact Hs].
  - intros H. injection H as <-. left. split; reflexivity.
Qed.

Lemma unmapped_members_not_mapped
    (active_sessions : dict string AudioSession)
    (system_session : AudioSession) (mapped_sessions : list AudioSession)
    (setting : string) (ses : AudioSession) :
  In ses (unmapped_members active_sessions system_session mapped_sessions
            setting) ->
  In ses (dict_values active_sessions) /\ ~ In ses mapped_sessions.
Proof.
  unfold unmapped_members. intros H. apply not_mapped_spec.
  destruct (_ && _)%bool; [exact (list_remove_incl _ _ _ H) | exact H].
Qed.

(** The keys of the resolved table are values of [target_idxs]. *)
Lemma resolved_keys_are_values (lines : list string)
    (active_sessions : dict string AudioSession)
    (system_session : AudioSession) (table : dict target_key Z)
    (session_dict : dict Z SessionObject) (key : Z) :
  resolve_unmapped lines active_sessions system_session table
    (resolve_items active_sessions system_session table) = Ok session_dict ->
  In key (dict_keys session_dict) -> In key (dict_values table).
Proof.
  intros Hu Hkey.
  assert (Hloop : forall k,
             In k (dict_keys
                     (fst (resolve_items active_sessions system_session table))) ->
             In k (dict_values table)).
  { intros k Hk. apply resolve_items_keys in Hk.
    destruct Hk as [[] | Hk]. exact Hk. }
  apply resolve_unmapped_ok in Hu.
  destruct Hu as [[_ ->] | [u [setting [Hget [_ ->]]]]].
  - exact (Hloop key Hkey).
  - apply dict_set_keys in Hkey. destruct Hkey as [-> | Hkey].
    + apply dict_get_In in Hget. apply in_map_iff.
      exists (KStr "unmapped", u). split; [reflexivity | exact Hget].
    + exact (Hloop key Hkey).
Qed.

(** ** The table of declarations *)

Section TableFacts.

Context {K V : Type}.
Variable K_eq_dec : forall x y : K, {x = y} + {x <> y}.

Lemma dict_set_values_NoDup (k : K) (v : V) (d : dict K V) :
  NoDup (dict_values d) -> ~ In v (dict_values d) ->
  NoDup (dict_values (dict_set K_eq_dec k v d)).
Proof.
  induction d as [| [k0 v0] d IH]; simpl; intros Hnd Hnew.
  - constructor; [intros [] | constructor].
  - inversion Hnd as [| ? ? Hnot Hrest]; subst.
    destruct (K_eq_dec k k0) as [E | N]; simpl.
    + constructor; [| exact Hrest].
      intros Hin. apply Hnew. right. exact Hin.
    + constructor.
      * intros Hin. apply dict_set_values in Hin.
        destruct Hin as [-> | Hin]; [| contradiction].
        apply Hnew. left. reflexivity.
      * apply IH; [exact Hrest |].
        intros Hin. apply Hnew. right. exact Hin.
Qed.

(** With distinct values, a value determines its key. *)
Lemma dict_value_key (k1 k2 : K) (v : V) (d : dict K V) :
  NoDup (dict_values d) -> In (k1, v) d -> In (k2, v) d -> k1 = k2.
Proof.
  induction d as [| [k0 v0] d IH]; simpl; intros Hnd; [intros [] |].
  inversion Hnd as [| ? ? Hnot Hrest]; subst.
  assert (Hval : forall k, In (k, v0) d -> False).
  { intros k Hin. apply Hnot. apply in_map_iff.
    exists (k, v0). split; [reflexivity | exact Hin]. }
  intros [E1 | H1] [E2 | H2].
  - congruence.
  - injection E1 as -> ->. destruct (Hval _ H2).
  - injection E2 as -> ->. destruct (Hval _ H1).
  - exact (IH Hrest H1 H2).
Qed.

End TableFacts.

Lemma read_target_idxs_keys_NoDup (lines : list string) (idxs : list Z)
    (acc d : dict target_key Z) :
  read_target_idxs lines idxs acc = Ok d ->
  NoDup (dict_keys acc) -> NoDup (dict_keys d).
Proof.
  revert acc. induction idxs as [| idx idxs IH]; intros acc; simpl.
  - intros H. injection H as <-. auto.
  - destruct (declaration lines idx) as [key |]; simpl; [| discriminate].
    intros H Hnd. apply (IH _ H). apply dict_set_keys_NoDup. exact Hnd.
Qed.

Lemma read_target_idxs_values_NoDup (lines : list string) (idxs : list Z)
    (acc d : dict target_key Z) :
  read_target_idxs lines idxs acc = Ok d ->
  NoDup idxs -> NoDup (dict_values acc) ->
  (forall v, In v (dict_values acc) -> ~ In v idxs) ->
  NoDup (dict_values d).
Proof.
  revert acc. induction idxs as [| idx idxs IH]; intros acc; simpl.
  - intros H. injection H as <-. auto.
  - destruct (declaration lines idx) as [key |]; simpl; [| discriminate].
    intros H Hidxs Hacc Hdisjoint.
    inversion Hidxs as [| ? ? Hfresh Hrest]; subst.
    apply (IH _ H Hrest).
    + apply dict_set_values_NoDup; [exact Hacc |].
      intros Hin. apply (Hdisjoint idx Hin). left. reflexivity.
    + intros v Hin Hv. apply dict_set_values in Hin.
      destruct Hin as [-> | Hin]; [contradiction |].
      apply (Hdisjoint v Hin). right. exact Hv.
Qed.

(** What the table holds under a key: the last index that declared it. *)
Lemma read_target_idxs_get (lines : list string) (idxs : list Z)
    (acc d : dict target_key Z) (key : target_key) :
  read_target_idxs lines idxs acc = Ok d ->
  dict_get target_key_eq_dec key d =
  match last_declared lines key idxs with
  | Some idx => Some idx
  | None => dict_get target_key_eq_dec key acc
  end.
Proof.
  revert acc. induction idxs as [| idx idxs IH]; intros acc; simpl.
  - intros H. injection H as <-. reflexivity.
  - destruct (declaration lines idx) as [key' |]; simpl; [| discriminate].
    intros H. rewrite (IH _ H).
    destruct (last_declared lines key idxs); [reflexivity |].
    destruct (target_key_eq_dec key key') as [<- | N].
    + apply dict_get_set_same.
    + apply dict_get_set_other. exact N.
Qed.

Lemma last_declared_none (lines : list string) (key : target_key)
    (idxs : list Z) :
  (forall idx, In idx idxs -> declaration lines idx <> Ok key) ->
  last_declared lines key idxs = None.
Proof.
  induction idxs as [| idx idxs IH]; simpl; intros H; [reflexivity |].
  rewrite IH by (intros k Hk; apply H; right; exact Hk).
  destruct (declaration lines idx) as [key' |] eqn:E; [| reflexivity].
  destruct (target_key_eq_dec key key') as [<- | _]; [| reflexivity].
  exfalso. apply (H idx); [left; reflexivity | exact E].
Qed.

(** In an increasing list of indices, the last index that declares [key] is
    the greatest one that does. *)
Lemma last_declared_greatest (lines : list string) (key : target_key)
    (idxs : list Z) (idx : Z) :
  StronglySorted Z.lt idxs ->
  In idx idxs -> declaration lines idx = Ok key ->
  (forall later, In later idxs -> idx < later ->
                 declaration lines later <> Ok key) ->
  last_declared lines key idxs = Some idx.
Proof.
  intros Hsorted. induction Hsorted as [| x idxs Hsorted IH Hall]; simpl.
  - intros [].
  - rewrite Forall_forall in Hall. intros Hin Hdecl Hlast.
    destruct Hin as [-> | Hin].
    + rewrite last_declared_none.
      * rewrite Hdecl. destruct (target_key_eq_dec key key);
          [reflexivity | contradiction].
      * intros k Hk. apply Hlast; [right; exact Hk | exact (Hall k Hk)].
    + rewrite IH; [reflexivity | exact Hin | exact Hdecl |].
      intros k Hk. apply Hlast. right. exact Hk.
Qed.

Lemma last_declared_sound (lines : list string) (key : target_key)
    (idxs : list Z) (idx : Z) :
  StronglySorted Z.lt idxs ->
  last_declared lines key idxs = Some idx ->
  declaration lines idx = Ok key
  /\ forall later, In later idxs -> idx < later ->
                   declaration lines later <> Ok key.
Proof.
  intros Hsorted. induction Hsorted as [| x idxs Hsorted IH Hall]; simpl.
  - discriminate.
  - rewrite Forall_forall in Hall.
    destruct (last_declared lines key idxs) as [j |] eqn:E.
    + intros H. injection H as ->. destruct (IH eq_refl) as [Hdecl Hlast].
      split; [exact Hdecl |].
      intros later [<- | Hin] Hlt; [| exact (Hlast later Hin Hlt)].
      assert (Hj : In idx idxs).
      { clear - E. induction idxs as [| y idxs IHl]; simpl in E;
          [discriminate |].
        destruct (last_declared lines key idxs) as [j |].
        - right. apply IHl. exact E.
        - destruct (declaration lines y) as [key' |]; [| discriminate].
          destruct (target_key_eq_dec key key'); [| discriminate].
          injection E as ->. left. reflexivity. }
      specialize (Hall idx Hj). lia.
    + destruct (declaration lines x) as [key' |] eqn:D; [| discriminate].
      destruct (target_key_eq_dec key key') as [<- | _]; [| discriminate].
      intros H. injection H as <-. split; [exact D |].
      intros later [<- | Hin] Hlt; [lia |].
      intros Hd. revert E. clear - Hin Hd.
      induction idxs as [| y idxs IHl]; simpl; [destruct Hin |].
      destruct (last_declared lines key idxs) as [j |] eqn:E; [discriminate |].
      destruct Hin as [-> | Hin].
      * rewrite Hd. destruct (target_key_eq_dec key key);
          [discriminate | contradiction].
      * exfalso. exact (IHl Hin eq_refl).
Qed.

Lemma range_sorted (n : Z) : StronglySorted Z.lt (range n).
Proof.
  unfold range. generalize (Z.to_nat n) as len. generalize 0%nat as start.
  intros start len. revert start.
  induction len as [| len IH]; intros start; simpl; constructor.
  - apply IH.
  - apply Forall_forall. intros x Hx. apply in_map_iff in Hx.
    destruct Hx as [k [<- Hk]]. apply in_seq in Hk. lia.
Qed.

Section ResolveItemsGet.

Variable active_sessions : dict string AudioSession.
Variable system_session : AudioSession.

Let step := resolve_item active_sessions system_session.

(** The loop leaves alone every slider that is not a value of the table. *)
Lemma resolve_items_untouched (items : dict target_key Z)
    (st : dict Z SessionObject * list AudioSession) (idx : Z) :
  ~ In idx (dict_values items) ->
  dict_get Z.eq_dec idx (fst (fold_left step items st)) =
  dict_get Z.eq_dec idx (fst st).
Proof.
  revert st. induction items as [| [target i] items IH]; intros st Hnot;
    simpl; [reflexivity |].
  rewrite IH by (intros Hin; apply Hnot; right; exact Hin).
  destruct st as [sd m]. unfold step. rewrite resolve_item_spec. simpl.
  destruct (bound_target _ _ _ _); [| reflexivity].
  apply dict_get_set_other. intros ->. apply Hnot. left. reflexivity.
Qed.

(** After the loop, a slider of the table holds what its own turn stored. *)
Lemma resolve_items_get (items : dict target_key Z)
    (st : dict Z SessionObject * list AudioSession)
    (target : target_key) (idx : Z) :
  NoDup (dict_values items) -> In (target, idx) items ->
  dict_get Z.eq_dec idx (fst (fold_left step items st)) =
  match bound_target active_sessions system_session target idx with
  | Some app => Some app
  | None => dict_get Z.eq_dec idx (fst st)
  end.
Proof.
  revert st. induction items as [| [target0 i] items IH]; intros st Hnd;
    simpl; [intros [] |].
  inversion Hnd as [| ? ? Hfresh Hrest]; subst.
  intros [E | Hin].
  - injection E as -> ->.
    rewrite resolve_items_untouched by exact Hfresh.
    destruct st as [sd m]. unfold step. rewrite resolve_item_spec. simpl.
    destruct (bound_target _ _ _ _); [| reflexivity].
    apply dict_get_set_same.
  - rewrite (IH _ Hrest Hin).
    destruct (bound_target active_sessions system_session target idx);
      [reflexivity |].
    destruct st as [sd m]. unfold step. rewrite resolve_item_spec. simpl.
    destruct (bound_target _ _ target0 i); [| reflexivity].
    apply dict_get_set_other. intros ->. apply Hfresh.
    apply in_map_iff. exists (target, i). split; [reflexivity | exact Hin].
Qed.

End ResolveItemsGet.

(** ** Properties of a resolution pass *)

(** C3.  Every key of the table that a pass produces for an object with
    [sliders = k] is an integer from 0 to k - 1. *)
Theorem resolved_keys_in_range :
  forall (w : World) (self self' : Control)
         (session_dict : dict Z SessionObject) (key : Z),
    get_mapping w self = Ok self' ->
    sessions self' = Some session_dict ->
    In key (dict_keys session_dict) ->
    0 <= key < sliders self.
Proof.
  intros w self self' session_dict key Hpass Hsessions Hkey.
  destruct (get_mapping_ok w self self' Hpass)
    as [table [sys [sd [Ht [_ [Hu [_ [Hsd _]]]]]]]].
  rewrite Hsessions in Hsd. injection Hsd as ->.
  apply range_bounds.
  pose proof (resolved_keys_are_values _ _ _ _ _ key Hu Hkey) as Hvalue.
  destruct (read_target_idxs_values _ _ _ _ key Ht Hvalue) as [[] | H].
  exact H.
Qed.

Lemma resolved_keys_in_range_witness : 0 <= 3 < 4.
Proof.
  apply (resolved_keys_in_range (scenario true false) (blank 4 false)
           (mkControl (Str.split newline (config_text (scenario true false)))
              4 None None false []
              [(KStr "master", 0); (KStr "system", 1); (KStr "chrome.exe", 2);
               (KStr "unmapped", 3)]
              (Some (live_sessions (scenario true false)))
              (Some [(0, Master 0); (1, System 1 system_sounds);
                     (2, Session 2 chrome); (3, SessionGroup 3 [firefox])]))
           [(0, Master 0); (1, System 1 system_sounds);
            (2, Session 2 chrome); (3, SessionGroup 3 [firefox])] 3).
  - vm_compute. reflexivity.
  - reflexivity.
  - simpl. right. right. right. left. reflexivity.
Defined.

(** C1.  In the table of a pass that resolved an [unmapped] slider, that
    slider holds a group, and no session controlled by the target of any
    other slider (the system sounds, a single process, or a member of a
    group) is a member of it. *)
Theorem unmapped_group_excludes_claimed :
  forall (w : World) (self self' : Control)
         (session_dict : dict Z SessionObject) (unmapped_idx : Z),
    get_mapping w self = Ok self' ->
    sessions self' = Some session_dict ->
    dict_get target_key_eq_dec (KStr "unmapped") (target_idxs self')
    = Some unmapped_idx ->
    exists members,
      dict_get Z.eq_dec unmapped_idx session_dict
      = Some (SessionGroup unmapped_idx members)
      /\ forall (idx : Z) (app : SessionObject) (session : AudioSession),
           idx <> unmapped_idx ->
           In (idx, app) session_dict ->
           In session (claimed_by app) ->
           ~ In session members.
Proof.
  intros w self self' session_dict unmapped_idx Hpass Hsessions Hunmapped.
  destruct (get_mapping_ok w self self' Hpass)
    as [table [sys [sd [_ [_ [Hu [Htable [Hsd _]]]]]]]].
  rewrite Hsessions in Hsd. injection Hsd as ->.
  rewrite Htable in Hunmapped.
  apply resolve_unmapped_ok in Hu.
  destruct Hu as [[Hnone _] | [u [setting [Hget [_ ->]]]]]; [congruence |].
  rewrite Hunmapped in Hget. injection Hget as <-.
  eexists. split; [apply dict_get_set_same |].
  intros idx app session Hidx Hin Hclaimed Hmember.
  apply unmapped_members_not_mapped in Hmember.
  destruct Hmember as [_ Hnot]. apply Hnot.
  apply dict_set_In in Hin. destruct Hin as [[E _] | Hin]; [contradiction |].
  refine (resolve_items_claims _ _ table ([], []) _ idx app session Hin Hclaimed).
  intros ? ? ? [].
Qed.

Lemma unmapped_group_excludes_claimed_witness :
  exists members,
    dict_get Z.eq_dec 3
      [(0, Master 0); (1, System 1 system_sounds); (2, Session 2 chrome);
       (3, SessionGroup 3 [firefox])]
    = Some (SessionGroup 3 members)
    /\ forall (idx : Z) (app : SessionObject) (session : AudioSession),
         idx <> 3 ->
         In (idx, app)
            [(0, Master 0); (1, System 1 system_sounds);
             (2, Session 2 chrome); (3, SessionGroup 3 [firefox])] ->
         In session (claimed_by app) ->
         ~ In session members.
Proof.
  apply (unmapped_group_excludes_claimed (scenario true false) (blank 4 false)
           (mkControl (Str.split newline (config_text (scenario true false)))
              4 None None false []
              [(KStr "master", 0); (KStr "system", 1); (KStr "chrome.exe", 2);
               (KStr "unmapped", 3)]
              (Some (live_sessions (scenario true false)))
              (Some [(0, Master 0); (1, System 1 system_sounds);
                     (2, Session 2 chrome); (3, SessionGroup 3 [firefox])]))).
  - vm_compute. reflexivity.
  - reflexivity.
  - reflexivity.
Defined.


(** C10.  When two sliders declare the same target expression, the lower
    one is absent from the resolved table.  When no slider above the higher
    one declares that expression too, the table of declarations holds the
    higher index under it, and the resolved table holds at the higher index
    what the expression resolves to: the target it is bound to (nothing, if
    the expression matches no live session), or the unmapped group when the
    expression is [unmapped]. *)
Theorem same_target_higher_index_wins :
  forall (w : World) (self self' : Control)
         (session_dict : dict Z SessionObject) (lower higher : Z)
         (target : target_key),
    get_mapping w self = Ok self' ->
    sessions self' = Some session_dict ->
    0 <= lower < higher ->
    higher < sliders self ->
    declaration (Str.split newline (config_text w)) lower = Ok target ->
    declaration (Str.split newline (config_text w)) higher = Ok target ->
    dict_get Z.eq_dec lower session_dict = None
    /\ ((forall later, higher < later < sliders self ->
           declaration (Str.split newline (config_text w)) later <> Ok target) ->
        exists system_session,
          find_system_session (live_sessions w) = Ok system_session
          /\ dict_get target_key_eq_dec target (target_idxs self') = Some higher
          /\ (target <> KStr "unmapped" ->
              dict_get Z.eq_dec higher session_dict =
              bound_target (build_active_sessions (live_sessions w) [])
                system_session target higher)
          /\ (target = KStr "unmapped" ->
              exists members,
                dict_get Z.eq_dec higher session_dict
                = Some (SessionGroup higher members))).
Proof.
  intros w self self' session_dict lower higher target Hpass Hsessions
         Hlower Hhigher Hdl Hdh.
  destruct (get_mapping_ok w self self' Hpass)
    as [table [sys [sd [Ht [Hs [Hu [Htable [Hsd _]]]]]]]].
  rewrite Hsessions in Hsd. injection Hsd as ->. rewrite Htable.
  pose proof (range_sorted (sliders self)) as Hsorted.
  assert (Hin_higher : In higher (range (sliders self)))
    by (apply range_In; lia).
  split.
  - apply dict_get_not_key. intros Hkey.
    apply (resolved_keys_are_values _ _ _ _ _ lower Hu) in Hkey.
    apply in_map_iff in Hkey. destruct Hkey as [[key v] [E Hentry]].
    simpl in E. subst v.
    apply (dict_In_get target_key_eq_dec) in Hentry;
      [| apply (read_target_idxs_keys_NoDup _ _ _ _ Ht); constructor].
    rewrite (read_target_idxs_get _ _ _ _ key Ht) in Hentry. simpl in Hentry.
    destruct (last_declared _ key _) as [j |] eqn:El; [| discriminate].
    injection Hentry as ->.
    destruct (last_declared_sound _ _ _ _ Hsorted El) as [Hdecl Hlast].
    assert (key = target) by congruence. subst key.
    apply (Hlast higher Hin_higher); [lia | exact Hdh].
  - intros Hlast. exists sys. split; [exact Hs |].
    assert (Hget : dict_get target_key_eq_dec target table = Some higher).
    { rewrite (read_target_idxs_get _ _ _ _ target Ht).
      rewrite (last_declared_greatest _ target _ higher Hsorted Hin_higher Hdh);
        [reflexivity |].
      intros later Hin Hlt. apply Hlast. apply range_bounds in Hin. lia. }
    split; [exact Hget |].
    assert (Hnd : NoDup (dict_values table)).
    { apply (read_target_idxs_values_NoDup _ _ _ _ Ht).
      - apply range_NoDup.
      - constructor.
      - intros v []. }
    assert (Hloop :
              dict_get Z.eq_dec higher
                (fst (resolve_items
                        (build_active_sessions (live_sessions w) []) sys table))
              = bound_target (build_active_sessions (live_sessions w) [])
                  sys target higher).
    { unfold resolve_items.
      rewrite (resolve_items_get _ _ table _ target higher Hnd
                 (dict_get_In _ _ _ _ Hget)).
      destruct (bound_target _ _ _ _); reflexivity. }
    apply resolve_unmapped_ok in Hu.
    destruct Hu as [[Hnone ->] | [u [setting [Hgu [_ ->]]]]].
    + split; [intros _; exact Hloop |]. intros ->. congruence.
    + split.
      * intros Hne. rewrite dict_get_set_other; [exact Hloop |].
        intros ->. apply Hne.
        exact (dict_value_key _ _ _ _ Hnd (dict_get_In _ _ _ _ Hget)
                 (dict_get_In _ _ _ _ Hgu)).
      * intros ->. rewrite Hget in Hgu. injection Hgu as <-.
        eexists. apply dict_get_set_same.
Qed.

Lemma same_target_higher_index_wins_witness :
  dict_get Z.eq_dec 0
    [(3, Session 3 chrome); (1, Master 1); (2, Session 2 firefox)] = None
  /\ dict_get Z.eq_dec 3
       [(3, Session 3 chrome); (1, Master 1); (2, Session 2 firefox)]
     = Some (Session 3 chrome).
Proof.
  destruct (same_target_higher_index_wins same_target_twice (blank 4 false)
              (mkControl (Str.split newline (config_text same_target_twice)) 4
                 None None false []
                 [(KStr "chrome.exe", 3); (KStr "master", 1);
                  (KStr "firefox.exe", 2)]
                 (Some (live_sessions same_target_twice))
                 (Some [(3, Session 3 chrome); (1, Master 1);
                        (2, Session 2 firefox)]))
              [(3, Session 3 chrome); (1, Master 1); (2, Session 2 firefox)]
              0 3 (KStr "chrome.exe"))
    as [Hlow Hhigh].
  - vm_compute. reflexivity.
  - reflexivity.
  - lia.
  - simpl. lia.
  - reflexivity.
  - reflexivity.
  - split; [exact Hlow |].
    destruct Hhigh as [sys [Hsys [_ [Hbound _]]]].
    + intros later Hlater. simpl in Hlater. lia.
    + rewrite Hbound by discriminate.
      vm_compute in Hsys. injection Hsys as <-. reflexivity.
Defined.

(** ** Scenarios of the resolver *)

(** The scenario with a [system in unmapped] line, evaluated: sliders 0 to 3
    resolve to {0: Master, 1: System, 2: Session(chrome.exe),
    3: Group([firefox.exe])}, whether the line says true or false and whether
    or not the system sounds session has a process. *)
Theorem scenario_resolution :
  forall (system_in_unmapped system_has_process : bool) (inv : bool),
    let w := scenario system_in_unmapped system_has_process in
    let sys := nth 2 (live_sessions w) chrome in
    match get_mapping w (blank 4 inv) with
    | Ok self =>
        sessions self =
        Some [(0, Master 0); (1, System 1 sys); (2, Session 2 chrome);
              (3, SessionGroup 3 [firefox])]
    | Raise _ => False
    end.
Proof.
  intros [|] [|] inv; vm_compute; reflexivity.
Qed.

(** C6.  A second pass over the same configuration text and the same live
    sessions, started from the object the first pass left, succeeds and
    leaves every field as it was: the same keys, the same target at each key
    and the same members in every group.  More generally the outcome of a
    pass does not depend on the tables a former pass left in the object: any
    object with the same number of sliders resolves to the same tables. *)
Theorem get_mapping_idempotent :
  forall (w : World) (self first : Control),
    get_mapping w self = Ok first ->
    get_mapping w first = Ok first
    /\ forall other : Control,
         sliders other = sliders self ->
         exists second,
           get_mapping w other = Ok second
           /\ sessions second = sessions first
           /\ target_idxs second = target_idxs first
           /\ found_pycaw_sessions second = found_pycaw_sessions first.
Proof.
  intros w self first H. unfold get_mapping in *. simpl in *.
  destruct (read_target_idxs _ _ _) as [t |] eqn:Et; simpl in *;
    [| discriminate].
  destruct (find_system_session _) as [sys |] eqn:Es; simpl in *;
    [| discriminate].
  destruct (resolve_unmapped _ _ _ _ _) as [sd |] eqn:Eu; simpl in *;
    [| discriminate].
  injection H as <-. simpl. split.
  - rewrite Et. simpl. rewrite Eu. reflexivity.
  - intros other Hsliders. rewrite Hsliders, Et. simpl. rewrite Eu.
    eexists. split; [reflexivity |]. simpl. repeat split.
Qed.

Lemma get_mapping_idempotent_witness :
  get_mapping (scenario true false)
    (mkControl (Str.split newline (config_text (scenario true false))) 4
       None None false []
       [(KStr "master", 0); (KStr "system", 1); (KStr "chrome.exe", 2);
        (KStr "unmapped", 3)]
       (Some (live_sessions (scenario true false)))
       (Some [(0, Master 0); (1, System 1 system_sounds);
              (2, Session 2 chrome); (3, SessionGroup 3 [firefox])]))
  = Ok (mkControl (Str.split newline (config_text (scenario true false))) 4
       None None false []
       [(KStr "master", 0); (KStr "system", 1); (KStr "chrome.exe", 2);
        (KStr "unmapped", 3)]
       (Some (live_sessions (scenario true false)))
       (Some [(0, Master 0); (1, System 1 system_sounds);
              (2, Session 2 chrome); (3, SessionGroup 3 [firefox])])).
Proof.
  refine (proj1 (get_mapping_idempotent (scenario true false) (blank 4 false)
                   _ _)).
  vm_compute. reflexivity.
Defined.

(** * Further properties *)

(** ** The lookup, line by line *)

Lemma append_assoc (a b c : string) : (a ++ b) ++ c = a ++ b ++ c.
Proof.
  induction a as [| x a IH]; simpl; [reflexivity | rewrite IH; reflexivity].
Qed.

Lemma prefix_append (n r : string) : String.prefix n (n ++ r) = true.
Proof.
  induction n as [| x n IH]; simpl; [destruct r; reflexivity |].
  destruct (ascii_dec x x); [exact IH | contradiction].
Qed.

Lemma contains_prefix (n s : string) :
  String.prefix n s = true -> Str.contains n s = true.
Proof.
  intros H. destruct s; cbn [Str.contains]; rewrite H; reflexivity.
Qed.

Lemma contains_append (n a b : string) :
  Str.contains n (a ++ n ++ b) = true.
Proof.
  induction a as [| x a IH]; simpl.
  - apply contains_prefix. apply prefix_append.
  - rewrite IH. apply orb_true_r.
Qed.

Lemma split_no_sep (sep : ascii) (s : string) :
  has_char sep s = false -> Str.split sep s = [s].
Proof.
  induction s as [| c t IH]; simpl; [reflexivity |].
  destruct (Ascii.eqb c sep); simpl; [discriminate |].
  intros H. rewrite (IH H). reflexivity.
Qed.

Lemma split_append_sep (sep : ascii) (a b : string) :
  has_char sep a = false ->
  Str.split sep (a ++ String sep b) = a :: Str.split sep b.
Proof.
  induction a as [| c t IH]; simpl.
  - intros _. rewrite Ascii.eqb_refl. reflexivity.
  - destruct (Ascii.eqb c sep); simpl; [discriminate |].
    intros H. rewrite (IH H). reflexivity.
Qed.

Lemma split_pieces_free (sep : ascii) (s piece : string) :
  In piece (Str.split sep s) -> has_char sep piece = false.
Proof.
  revert piece. induction s as [| c t IH]; simpl; intros piece.
  - intros [<- | []]. reflexivity.
  - destruct (Ascii.eqb c sep) eqn:E.
    + intros [<- | H]; [reflexivity | exact (IH piece H)].
    + destruct (Str.split sep t) as [| h r] eqn:Es.
      * intros [<- | []]. simpl. rewrite E. reflexivity.
      * intros [<- | H].
        -- simpl. rewrite E. simpl. apply IH. left. reflexivity.
        -- apply IH. right. exact H.
Qed.

Lemma lstrip_free (c : ascii) (s : string) :
  has_char c s = false -> has_char c (Str.lstrip s) = false.
Proof.
  induction s as [| x t IH]; simpl; [reflexivity |].
  intros H. apply orb_false_iff in H. destruct H as [Hx Ht].
  destruct (Str.isspace x); [exact (IH Ht) |].
  simpl. rewrite Hx, Ht. reflexivity.
Qed.

Lemma rstrip_free (c : ascii) (s : string) :
  has_char c s = false -> has_char c (Str.rstrip s) = false.
Proof.
  induction s as [| x t IH]; simpl; [reflexivity |].
  intros H. apply orb_false_iff in H. destruct H as [Hx Ht].
  specialize (IH Ht). destruct (Str.rstrip t) as [| y r].
  - destruct (Str.isspace x); simpl; [reflexivity |].
    rewrite Hx. reflexivity.
  - simpl in *. rewrite Hx. exact IH.
Qed.

Lemma rstrip_idempotent (s : string) :
  Str.rstrip (Str.rstrip s) = Str.rstrip s.
Proof.
  induction s as [| x t IH]; simpl; [reflexivity |].
  destruct (Str.rstrip t) as [| y r] eqn:E.
  - destruct (Str.isspace x) eqn:Ex; simpl; [reflexivity |].
    rewrite Ex. reflexivity.
  - simpl. simpl in IH. rewrite IH. reflexivity.
Qed.

(** What [lstrip] returns is empty or starts with a character that is no
    white space, and [rstrip] keeps such a start. *)
Lemma lstrip_fixed (s : string) :
  Str.lstrip (Str.rstrip (Str.lstrip s)) = Str.rstrip (Str.lstrip s).
Proof.
  induction s as [| x t IH]; simpl; [reflexivity |].
  destruct (Str.isspace x) eqn:Ex; [exact IH |].
  simpl. destruct (Str.rstrip t); rewrite ?Ex; simpl; rewrite Ex; reflexivity.
Qed.

Lemma strip_idempotent (s : string) : Str.strip (Str.strip s) = Str.strip s.
Proof.
  unfold Str.strip. rewrite lstrip_fixed. apply rstrip_idempotent.
Qed.

Lemma py_index_first_match (text : string) (lines : list string) :
  py_index (matching_lines text lines) 0 =
  match first_match text lines with
  | Some line => Ok line
  | None => Raise IndexError
  end.
Proof.
  unfold matching_lines, first_match.
  induction lines as [| x lines IH]; simpl.
  - apply py_index_nil.
  - destruct (Str.contains (text ++ ":") x); [apply py_index_head | exact IH].
Qed.

Lemma first_match_contains (text : string) (lines : list string)
    (line : string) :
  first_match text lines = Some line ->
  In line lines /\ Str.contains (text ++ ":") line = true.
Proof.
  unfold first_match. intros H. apply find_some in H. exact H.
Qed.

Lemma get_setting_by_first_match (lines : list string) (text : string) :
  get_setting lines text =
  match first_match text lines with
  | Some line => Ok (value_of_line line)
  | None => Raise IndexError
  end.
Proof.
  unfold get_setting. rewrite py_index_first_match.
  destruct (first_match text lines) as [line |] eqn:E; simpl; [| reflexivity].
  apply first_match_contains in E. destruct E as [_ Hline].
  rewrite (py_index_in_range (Str.split colon line) 1 ""); [reflexivity |].
  assert (2 <= List.length (Str.split colon line))%nat; [| lia].
  apply split_has_char. apply (contains_has_char colon (text ++ ":")).
  - rewrite has_char_append. simpl. apply orb_true_r.
  - exact Hline.
Qed.

(** X1.  The lookup returns the value of the first line that contains
    [text + ":"], and raises [IndexError] exactly when no line does; cutting
    the selected line at its colons never fails. *)
Theorem get_setting_first_match :
  forall (lines : list string) (text : string),
    get_setting lines text =
    match first_match text lines with
    | Some line => Ok (value_of_line line)
    | None => Raise IndexError
    end.
Proof.
  exact get_setting_by_first_match.
Qed.

Lemma value_of_keyed_line (prefix text value : string) :
  has_char colon prefix = false -> has_char colon text = false ->
  has_char colon value = false ->
  value_of_line (prefix ++ text ++ ":" ++ value) = Str.strip value
  /\ (forall tail, value_of_line (prefix ++ text ++ ":" ++ value ++ ":" ++ tail)
                   = Str.strip value).
Proof.
  intros Hp Ht Hv.
  assert (Hkey : has_char colon (prefix ++ text) = false)
    by (rewrite has_char_append, Hp, Ht; reflexivity).
  split; [| intros tail]; unfold value_of_line.
  - rewrite <- append_assoc. change (":" ++ value) with (String colon value).
    rewrite (split_append_sep colon _ value Hkey).
    rewrite (split_no_sep colon value Hv). reflexivity.
  - rewrite <- append_assoc.
    change (":" ++ value ++ ":" ++ tail)
      with (String colon (value ++ String colon tail)).
    rewrite (split_append_sep colon _ _ Hkey).
    rewrite (split_append_sep colon value tail Hv). reflexivity.
Qed.

(** X2.  What is written as [key:value] is read back: when no earlier line
    contains [key:], the lookup of [key] on a line [key:value] returns
    [value] without the white space around it, and on a line
    [key:value:more] it returns the same, the text from the second colon on
    being dropped ([key] and [value] hold no colon). *)
Theorem get_setting_reads_back :
  forall (pre post : list string) (key value more : string),
    has_char colon key = false ->
    has_char colon value = false ->
    (forall x, In x pre -> Str.contains (key ++ ":") x = false) ->
    get_setting (pre ++ (key ++ ":" ++ value)%string :: post)%list key
    = Ok (Str.strip value)
    /\ get_setting (pre ++ (key ++ ":" ++ value ++ ":" ++ more)%string :: post)%list key
       = Ok (Str.strip value).
Proof.
  intros pre post key value more Hk Hv Hpre.
  destruct (value_of_keyed_line "" key value eq_refl Hk Hv) as [H1 H2].
  split.
  - rewrite get_setting_first; [f_equal; exact H1 | exact Hpre |].
    rewrite <- (append_assoc key ":" value).
    apply (contains_append (key ++ ":") "" value).
  - rewrite get_setting_first; [f_equal; exact (H2 more) | exact Hpre |].
    rewrite <- (append_assoc key ":").
    apply (contains_append (key ++ ":") "" (value ++ ":" ++ more)).
Qed.

Lemma get_setting_reads_back_witness :
  get_setting (["# sliders"; "sliders: 5"]
               ++ ("port" ++ ":" ++ " COM8 ")%string
               :: ["baudrate:9600"])%list "port"
  = Ok (Str.strip " COM8 ")
  /\ get_setting (["# sliders"; "sliders: 5"]
                  ++ ("port" ++ ":" ++ " COM8 " ++ ":" ++ "x")%string
                  :: ["baudrate:9600"])%list "port"
     = Ok (Str.strip " COM8 ").
Proof.
  apply (get_setting_reads_back ["# sliders"; "sliders: 5"] ["baudrate:9600"]
           "port" " COM8 " "x").
  - reflexivity.
  - reflexivity.
  - intros x [<- | [<- | []]]; reflexivity.
Defined.

(** X3.  A value that the lookup returns holds no colon and has no white
    space at either end: stripping it again changes nothing. *)
Theorem get_setting_value_shape :
  forall (lines : list string) (text value : string),
    get_setting lines text = Ok value ->
    has_char colon value = false /\ Str.strip value = value.
Proof.
  intros lines text value H. unfold get_setting in H.
  apply bind_ok in H. destruct H as [setting [_ H]].
  apply bind_ok in H. destruct H as [piece [Hpiece H]].
  injection H as <-. split; [| apply strip_idempotent].
  unfold Str.strip. apply rstrip_free, lstrip_free.
  apply (split_pieces_free colon setting).
  unfold py_index in Hpiece.
  destruct ((0 <=? _) && _)%bool; [| discriminate].
  destruct (nth_error _ _) as [p |] eqn:E; [| discriminate].
  injection Hpiece as <-. exact (nth_error_In _ _ E).
Qed.

Lemma get_setting_value_shape_witness :
  has_char colon "C" = false /\ Str.strip "C" = "C".
Proof.
  apply (get_setting_value_shape ["device name: C:\Devices\Micro "]
           "device name" "C").
  reflexivity.
Defined.

(** X4.  The key is searched as a piece of text, anywhere in a line: a first
    line [<prefix><key>:value], whose own key is longer or which is a
    comment, answers the lookup of [key] with its value, whatever the lines
    after it hold (the prefix, the key and the value hold no colon). *)
Theorem get_setting_shadowed :
  forall (prefix key value : string) (rest : list string),
    has_char colon prefix = false ->
    has_char colon key = false ->
    has_char colon value = false ->
    get_setting ((prefix ++ key ++ ":" ++ value) :: rest) key
    = Ok (Str.strip value).
Proof.
  intros prefix key value rest Hp Hk Hv.
  destruct (value_of_keyed_line prefix key value Hp Hk Hv) as [H _].
  rewrite <- H.
  apply (get_setting_first key [] rest (prefix ++ key ++ ":" ++ value)).
  - intros x [].
  - rewrite <- (append_assoc key ":"). apply contains_append.
Qed.

Lemma get_setting_shadowed_witness :
  get_setting (("1" ++ "0" ++ ":" ++ " discord.exe") :: ["0: master"]) "0"
  = Ok (Str.strip " discord.exe").
Proof.
  apply (get_setting_shadowed "1" "0" " discord.exe" ["0: master"]);
    reflexivity.
Defined.

(** ** When a pass succeeds *)

Lemma has_key_first_match (lines : list string) (text : string) :
  has_key lines text = true <-> first_match text lines <> None.
Proof.
  unfold has_key, first_match.
  induction lines as [| x lines IH]; simpl.
  - split; [discriminate | intros H; contradiction].
  - destruct (Str.contains (text ++ ":") x); simpl.
    + split; [discriminate | reflexivity].
    + exact IH.
Qed.

Lemma get_setting_ok_iff (lines : list string) (text : string) :
  is_ok (get_setting lines text) = has_key lines text.
Proof.
  rewrite get_setting_by_first_match.
  destruct (has_key lines text) eqn:E.
  - apply has_key_first_match in E.
    destruct (first_match text lines); [reflexivity | contradiction].
  - destruct (first_match text lines) eqn:F; [| reflexivity].
    assert (H : has_key lines text = true)
      by (apply has_key_first_match; congruence).
    congruence.
Qed.

Lemma declaration_ok_iff (lines : list string) (idx : Z) :
  is_ok (declaration lines idx) = has_key lines (Str.of_int idx).
Proof.
  rewrite <- get_setting_ok_iff. unfold declaration.
  destruct (get_setting lines (Str.of_int idx)); reflexivity.
Qed.

Lemma read_target_idxs_ok_iff (lines : list string) (idxs : list Z)
    (acc : dict target_key Z) :
  is_ok (read_target_idxs lines idxs acc) = true <->
  forall idx, In idx idxs -> is_ok (declaration lines idx) = true.
Proof.
  revert acc. induction idxs as [| idx idxs IH]; intros acc; simpl.
  - split; [intros _ idx [] | reflexivity].
  - destruct (declaration lines idx) as [key |] eqn:E; simpl.
    + rewrite IH. split.
      * intros H i [<- | Hi]; [rewrite E; reflexivity | exact (H i Hi)].
      * intros H i Hi. apply H. right. exact Hi.
    + split; [discriminate |].
      intros H. specialize (H idx (or_introl eq_refl)).
      rewrite E in H. discriminate H.
Qed.

Lemma read_target_idxs_keys_inv (lines : list string) (idxs : list Z)
    (acc d : dict target_key Z) (key : target_key) :
  read_target_idxs lines idxs acc = Ok d ->
  In key (dict_keys d) ->
  In key (dict_keys acc)
  \/ (exists idx, In idx idxs /\ declaration lines idx = Ok key).
Proof.
  revert acc. induction idxs as [| idx idxs IH]; intros acc; simpl.
  - intros H. injection H as <-. intros Hk. left. exact Hk.
  - destruct (declaration lines idx) as [key0 |] eqn:E; simpl; [| discriminate].
    intros H Hk. destruct (IH _ H Hk) as [Hacc | [i [Hi Hd]]].
    + apply dict_set_keys in Hacc. destruct Hacc as [-> | Hacc].
      * right. exists idx. split; [left; reflexivity | exact E].
      * left. exact Hacc.
    + right. exists i. split; [right; exact Hi | exact Hd].
Qed.

Lemma find_system_session_ok_iff (found : list AudioSession) :
  is_ok (find_system_session found) = has_system_session found.
Proof.
  unfold find_system_session, has_system_session.
  induction found as [| session found IH]; [reflexivity |].
  cbn [filter existsb].
  destruct (Str.contains "SystemRoot" (DisplayName session)).
  - rewrite py_index_head. reflexivity.
  - exact IH.
Qed.

Lemma is_ok_true {A : Type} (r : result A) :
  is_ok r = true <-> exists a, r = Ok a.
Proof.
  destruct r as [a | e]; simpl.
  - split; [intros _; exists a; reflexivity | reflexivity].
  - split; [discriminate | intros [a H]; discriminate H].
Qed.

Lemma get_mapping_raises (w : World) (self : Control) (e : exn) :
  get_mapping w self = Raise e -> e = IndexError.
Proof.
  unfold get_mapping. simpl.
  destruct (read_target_idxs _ _ _) as [table | e1] eqn:Et; simpl.
  - destruct (find_system_session _) as [sys | e2] eqn:Es; simpl.
    + destruct (resolve_unmapped _ _ _ _ _) as [sd | e3] eqn:Eu; simpl;
        [discriminate |].
      intros H. injection H as <-.
      unfold resolve_unmapped in Eu.
      destruct (resolve_items _ _ _) as [sd m].
      destruct (dict_get _ _ _); [| discriminate].
      destruct (get_setting _ _) eqn:Eg; simpl in Eu; [discriminate |].
      injection Eu as <-. exact (get_setting_raises _ _ _ Eg).
    + intros H. injection H as <-. exact (py_index_raises _ _ _ Es).
  - intros H. injection H as <-. exact (read_target_idxs_raises _ _ _ _ Et).
Qed.

Lemma get_mapping_success_criterion :
  forall (w : World) (self : Control),
    (is_ok (get_mapping w self) = true <->
     (forall idx, 0 <= idx < sliders self ->
                  has_key (Str.split newline (config_text w)) (Str.of_int idx)
                  = true)
     /\ has_system_session (live_sessions w) = true
     /\ ((exists idx, 0 <= idx < sliders self
                      /\ declaration (Str.split newline (config_text w)) idx
                         = Ok (KStr "unmapped")) ->
         has_key (Str.split newline (config_text w)) "system in unmapped"
         = true))
    /\ (forall e, get_mapping w self = Raise e -> e = IndexError).
Proof.
  intros w self. split; [| apply get_mapping_raises].
  set (lines := Str.split newline (config_text w)).
  split.
  - intros H. apply is_ok_true in H. destruct H as [self' H].
    destruct (get_mapping_ok w self self' H)
      as [table [sys [sd [Ht [Hs [Hu _]]]]]].
    fold lines in Ht, Hu. repeat split.
    + intros idx Hidx. rewrite <- declaration_ok_iff.
      apply (proj1 (read_target_idxs_ok_iff lines (range (sliders self)) [])).
      * rewrite Ht. reflexivity.
      * apply range_In. exact Hidx.
    + rewrite <- find_system_session_ok_iff, Hs. reflexivity.
    + intros [idx [Hidx Hdecl]].
      assert (Hkey : In (KStr "unmapped") (dict_keys table)).
      { apply (read_target_idxs_keys _ _ _ _ _ Ht). right. exists idx.
        split; [apply range_In; exact Hidx | exact Hdecl]. }
      apply (dict_get_key target_key_eq_dec) in Hkey. destruct Hkey as [u Hget].
      apply resolve_unmapped_ok in Hu.
      destruct Hu as [[Hnone _] | [u' [setting [_ [Hsetting _]]]]];
        [congruence |].
      rewrite <- get_setting_ok_iff, Hsetting. reflexivity.
  - intros [Hall [Hsys Hunmapped]]. unfold get_mapping. simpl. fold lines.
    destruct (read_target_idxs lines (range (sliders self)) [])
      as [table | e] eqn:Et.
    + simpl. rewrite <- find_system_session_ok_iff in Hsys.
      destruct (find_system_session (live_sessions w)) as [sys | e];
        [| discriminate]. simpl.
      unfold resolve_unmapped. destruct (resolve_items _ _ _) as [sd m].
      destruct (dict_get target_key_eq_dec (KStr "unmapped") table)
        as [u |] eqn:Eu; [| reflexivity].
      assert (Hkey : has_key lines "system in unmapped" = true).
      { apply Hunmapped. apply dict_get_In in Eu.
        destruct (read_target_idxs_keys_inv _ _ _ _ (KStr "unmapped") Et)
          as [[] | [idx [Hidx Hdecl]]].
        - apply in_map_iff. exists (KStr "unmapped", u).
          split; [reflexivity | exact Eu].
        - exists idx. split; [apply range_bounds; exact Hidx | exact Hdecl]. }
      rewrite <- get_setting_ok_iff in Hkey.
      destruct (get_setting lines "system in unmapped"); [reflexivity |].
      discriminate Hkey.
    + exfalso.
      assert (H : is_ok (read_target_idxs lines (range (sliders self)) [])
                  = true).
      { apply read_target_idxs_ok_iff. intros idx Hidx.
        rewrite declaration_ok_iff. apply Hall. apply range_bounds.
        exact Hidx. }
      rewrite Et in H. discriminate H.
Qed.


(** X5.  A pass succeeds exactly when every slider index below [sliders]
    has a line that holds [<index>:], some live session is the system sounds
    session, and, if a slider is declared as [unmapped], a line holds
    [system in unmapped:].  When it fails it raises [IndexError]. *)
Theorem get_mapping_succeeds_iff :
  forall (w : World) (self : Control),
    (is_ok (get_mapping w self) = true <->
     (forall idx, 0 <= idx < sliders self ->
                  has_key (Str.split newline (config_text w)) (Str.of_int idx)
                  = true)
     /\ has_system_session (live_sessions w) = true
     /\ ((exists idx, 0 <= idx < sliders self
                      /\ declaration (Str.split newline (config_text w)) idx
                         = Ok (KStr "unmapped")) ->
         has_key (Str.split newline (config_text w)) "system in unmapped"
         = true))
    /\ (forall e, get_mapping w self = Raise e -> e = IndexError).
Proof.
  exact get_mapping_success_criterion.
Qed.

Lemma get_mapping_succeeds_iff_witness :
  is_ok (get_mapping (scenario true false) (blank 4 false)) = true.
Proof.
  apply (proj1 (get_mapping_succeeds_iff (scenario true false)
                  (blank 4 false))).
  split; [| split].
  - intros idx Hidx. simpl in Hidx.
    assert (H : idx = 0 \/ idx = 1 \/ idx = 2 \/ idx = 3) by lia.
    destruct H as [-> | [-> | [-> | ->]]]; reflexivity.
  - reflexivity.
  - intros _. reflexivity.
Defined.

(** ** The resolved table, slider by slider *)

Lemma build_active_sessions_get (name : string) (found : list AudioSession)
    (acc : dict string AudioSession) :
  dict_get string_dec name (build_active_sessions found acc) =
  match last_with_name name found with
  | Some session => Some session
  | None => dict_get string_dec name acc
  end.
Proof.
  revert acc. induction found as [| session found IH]; intros acc; simpl.
  - reflexivity.
  - destruct (Process session) as [n |]; rewrite IH;
      destruct (last_with_name name found); try reflexivity.
    destruct (string_dec name (Str.lower n)) as [-> | N].
    + apply dict_get_set_same.
    + apply dict_get_set_other. exact N.
Qed.

Lemma last_with_name_none (name : string) (found : list AudioSession) :
  (forall session n, In session found -> Process session = Some n ->
                     Str.lower n <> name) ->
  last_with_name name found = None.
Proof.
  induction found as [| session found IH]; simpl; intros H; [reflexivity |].
  rewrite IH by (intros s n Hs; apply H; right; exact Hs).
  destruct (Process session) as [n |] eqn:E; [| reflexivity].
  destruct (string_dec name (Str.lower n)) as [-> | _]; [| reflexivity].
  exfalso. exact (H session n (or_introl eq_refl) E eq_refl).
Qed.

Lemma last_with_name_found (name : string) (before after : list AudioSession)
    (session : AudioSession) (n : string) :
  Process session = Some n -> Str.lower n = name ->
  (forall later m, In later after -> Process later = Some m ->
                   Str.lower m <> name) ->
  last_with_name name (before ++ session :: after) = Some session.
Proof.
  intros Hp Hn Hafter. induction before as [| x before IH]; simpl.
  - rewrite (last_with_name_none name after Hafter), Hp.
    destruct (string_dec name (Str.lower n)); [reflexivity | congruence].
  - rewrite IH. reflexivity.
Qed.

Lemma last_with_name_sound (name : string) (found : list AudioSession)
    (session : AudioSession) :
  last_with_name name found = Some session ->
  In session found /\ exists n, Process session = Some n /\ Str.lower n = name.
Proof.
  induction found as [| x found IH]; simpl; [discriminate |].
  destruct (last_with_name name found) as [later |].
  - intros H. injection H as ->. destruct (IH eq_refl) as [Hin Hn].
    split; [right; exact Hin | exact Hn].
  - destruct (Process x) as [n |] eqn:E; [| discriminate].
    destruct (string_dec name (Str.lower n)) as [-> | _]; [| discriminate].
    intros H. injection H as <-. split; [left; reflexivity |].
    exists n. split; [exact E | reflexivity].
Qed.

Lemma group_hits_members (found : list AudioSession) (apps : list string) :
  group_hits (build_active_sessions found []) apps = group_members found apps.
Proof.
  unfold group_members. induction apps as [| app apps IH]; simpl.
  - reflexivity.
  - rewrite IH, build_active_sessions_get. simpl.
    destruct (is_category (Str.lower app)); [reflexivity |].
    destruct (last_with_name (Str.lower app) found); reflexivity.
Qed.

(** The entry of the last slider that declares an expression. *)
Lemma slider_entry_last (w : World) (self self' : Control)
    (session_dict : dict Z SessionObject) (idx : Z) (key : target_key) :
  get_mapping w self = Ok self' ->
  sessions self' = Some session_dict ->
  last_declared (Str.split newline (config_text w)) key (range (sliders self))
  = Some idx ->
  exists system_session,
    find_system_session (live_sessions w) = Ok system_session
    /\ (key <> KStr "unmapped" ->
        dict_get Z.eq_dec idx session_dict =
        bound_target (build_active_sessions (live_sessions w) [])
          system_session key idx)
    /\ (key = KStr "unmapped" ->
        exists setting,
          get_setting (Str.split newline (config_text w)) "system in unmapped"
          = Ok setting
          /\ dict_get Z.eq_dec idx session_dict =
             Some (SessionGroup idx
                     (unmapped_members
                        (build_active_sessions (live_sessions w) [])
                        system_session
                        (snd (resolve_items
                                (build_active_sessions (live_sessions w) [])
                                system_session (target_idxs self')))
                        setting))).
Proof.
  intros Hpass Hsessions Hlast.
  destruct (get_mapping_ok w self self' Hpass)
    as [table [sys [sd [Ht [Hs [Hu [Htable [Hsd _]]]]]]]].
  rewrite Hsessions in Hsd. injection Hsd as ->. rewrite Htable.
  exists sys. split; [exact Hs |].
  assert (Hget : dict_get target_key_eq_dec key table = Some idx).
  { rewrite (read_target_idxs_get _ _ _ _ key Ht), Hlast. reflexivity. }
  assert (Hnd : NoDup (dict_values table)).
  { apply (read_target_idxs_values_NoDup _ _ _ _ Ht).
    - apply range_NoDup.
    - constructor.
    - intros v []. }
  assert (Hloop :
            dict_get Z.eq_dec idx
              (fst (resolve_items
                      (build_active_sessions (live_sessions w) []) sys table))
            = bound_target (build_active_sessions (live_sessions w) [])
                sys key idx).
  { unfold resolve_items.
    rewrite (resolve_items_get _ _ table _ key idx Hnd
               (dict_get_In _ _ _ _ Hget)).
    destruct (bound_target _ _ _ _); reflexivity. }
  apply resolve_unmapped_ok in Hu.
  destruct Hu as [[Hnone ->] | [u [setting [Hgu [Hsetting ->]]]]].
  - split; [intros _; exact Hloop |]. intros ->. congruence.
  - split.
    + intros Hne. rewrite dict_get_set_other; [exact Hloop |].
      intros ->. apply Hne.
      exact (dict_value_key _ _ _ _ Hnd (dict_get_In _ _ _ _ Hget)
               (dict_get_In _ _ _ _ Hgu)).
    + intros ->. rewrite Hget in Hgu. injection Hgu as <-.
      exists setting. split; [exact Hsetting | apply dict_get_set_same].
Qed.

(** A slider whose expression is declared again by a later slider has no
    entry. *)
Lemma slider_entry_shadowed (w : World) (self self' : Control)
    (session_dict : dict Z SessionObject) (idx : Z) (key : target_key) :
  get_mapping w self = Ok self' ->
  sessions self' = Some session_dict ->
  declaration (Str.split newline (config_text w)) idx = Ok key ->
  last_declared (Str.split newline (config_text w)) key (range (sliders self))
  <> Some idx ->
  dict_get Z.eq_dec idx session_dict = None.
Proof.
  intros Hpass Hsessions Hdecl Hlast.
  destruct (get_mapping_ok w self self' Hpass)
    as [table [sys [sd [Ht [_ [Hu [_ [Hsd _]]]]]]]].
  rewrite Hsessions in Hsd. injection Hsd as ->.
  apply dict_get_not_key. intros Hkey.
  apply (resolved_keys_are_values _ _ _ _ _ idx Hu) in Hkey.
  apply in_map_iff in Hkey. destruct Hkey as [[key' v] [E Hentry]].
  simpl in E. subst v.
  apply (dict_In_get target_key_eq_dec) in Hentry;
    [| apply (read_target_idxs_keys_NoDup _ _ _ _ Ht); constructor].
  rewrite (read_target_idxs_get _ _ _ _ key' Ht) in Hentry. simpl in Hentry.
  destruct (last_declared _ key' _) as [j |] eqn:El; [| discriminate].
  injection Hentry as ->.
  destruct (last_declared_sound _ _ _ _ (range_sorted _) El) as [Hd _].
  assert (key' = key) by congruence. subst key'. contradiction.
Qed.

Lemma last_declared_of_last (lines : list string) (key : target_key)
    (n idx : Z) :
  0 <= idx < n ->
  declaration lines idx = Ok key ->
  (forall later, idx < later < n -> declaration lines later <> Ok key) ->
  last_declared lines key (range n) = Some idx.
Proof.
  intros Hidx Hdecl Hlast.
  apply (last_declared_greatest _ _ _ _ (range_sorted n)).
  - apply range_In. exact Hidx.
  - exact Hdecl.
  - intros later Hin Hlt. apply Hlast. apply range_bounds in Hin. lia.
Qed.

Lemma option_Z_eq_dec (a b : option Z) : {a = b} + {a <> b}.
Proof.
  decide equality. apply Z.eq_dec.
Qed.

(** X6.  A slider declared as a process that is not running has no entry in
    the resolved table, and the pass does not fail for it: no live session
    has that process name, in any casing, and the name is none of [master],
    [system] and [unmapped]. *)
Theorem absent_process_leaves_slider_unbound :
  forall (w : World) (self self' : Control)
         (session_dict : dict Z SessionObject) (idx : Z) (name : string),
    get_mapping w self = Ok self' ->
    sessions self' = Some session_dict ->
    declaration (Str.split newline (config_text w)) idx = Ok (KStr name) ->
    Str.lower name <> "master" ->
    Str.lower name <> "system" ->
    name <> "unmapped" ->
    (forall session n, In session (live_sessions w) ->
                       Process session = Some n ->
                       Str.lower n <> Str.lower name) ->
    dict_get Z.eq_dec idx session_dict = None.
Proof.
  intros w self self' sd idx name Hpass Hsessions Hdecl Hm Hs Hu Habsent.
  destruct (option_Z_eq_dec
              (last_declared (Str.split newline (config_text w)) (KStr name)
                 (range (sliders self))) (Some idx)) as [Hlast | Hlast].
  - destruct (slider_entry_last w self self' sd idx (KStr name)
                Hpass Hsessions Hlast) as [sys [_ [Hbound _]]].
    rewrite Hbound by congruence. simpl.
    apply String.eqb_neq in Hm, Hs. rewrite Hm, Hs.
    destruct (String.eqb (Str.lower name) "unmapped"); [reflexivity |].
    rewrite build_active_sessions_get.
    rewrite (last_with_name_none _ _ Habsent). reflexivity.
  - exact (slider_entry_shadowed w self self' sd idx (KStr name)
             Hpass Hsessions Hdecl Hlast).
Qed.

Lemma absent_process_leaves_slider_unbound_witness :
  dict_get Z.eq_dec 3 [(0, Master 0); (2, SessionGroup 2 [chrome])] = None.
Proof.
  apply (absent_process_leaves_slider_unbound group_scenario (blank 4 false)
           (mkControl (Str.split newline (config_text group_scenario)) 4
              None None false []
              [(KStr "master", 0); (KStr "Unmapped", 1);
               (KTuple ["chrome.exe"; "discord.exe"], 2); (KStr "vlc.exe", 3)]
              (Some (live_sessions group_scenario))
              (Some [(0, Master 0); (2, SessionGroup 2 [chrome])]))
           [(0, Master 0); (2, SessionGroup 2 [chrome])] 3 "vlc.exe").
  - vm_compute. reflexivity.
  - reflexivity.
  - reflexivity.
  - discriminate.
  - discriminate.
  - discriminate.
  - intros session n [<- | [<- | [<- | []]]]; simpl; intros H;
      try discriminate H; injection H as <-; discriminate.
Defined.

(** X7.  Process names are matched without regard to case, and among live
    sessions with the same name the last one listed is taken: the last
    slider that declares [name] is bound to the [Session] of the last live
    session whose process name equals [name] once both are in lower case. *)
Theorem process_matched_ignoring_case :
  forall (w : World) (self self' : Control)
         (session_dict : dict Z SessionObject) (idx : Z) (name : string)
         (before after : list AudioSession) (session : AudioSession)
         (process_name : string),
    get_mapping w self = Ok self' ->
    sessions self' = Some session_dict ->
    0 <= idx < sliders self ->
    declaration (Str.split newline (config_text w)) idx = Ok (KStr name) ->
    (forall later, idx < later < sliders self ->
       declaration (Str.split newline (config_text w)) later
       <> Ok (KStr name)) ->
    Str.lower name <> "master" ->
    Str.lower name <> "system" ->
    Str.lower name <> "unmapped" ->
    live_sessions w = (before ++ session :: after)%list ->
    Process session = Some process_name ->
    Str.lower process_name = Str.lower name ->
    (forall later n, In later after -> Process later = Some n ->
                     Str.lower n <> Str.lower name) ->
    dict_get Z.eq_dec idx session_dict = Some (Session idx session).
Proof.
  intros w self self' sd idx name before after session pname Hpass Hsessions
         Hidx Hdecl Hlater Hm Hs Hu Hlive Hp Hn Hafter.
  pose proof (last_declared_of_last _ _ _ _ Hidx Hdecl Hlater) as Hlast.
  destruct (slider_entry_last w self self' sd idx (KStr name)
              Hpass Hsessions Hlast) as [sys [_ [Hbound _]]].
  rewrite Hbound by (intros E; injection E as ->; apply Hu; reflexivity).
  simpl. apply String.eqb_neq in Hm, Hs, Hu. rewrite Hm, Hs, Hu.
  rewrite build_active_sessions_get, Hlive.
  rewrite (last_with_name_found _ before after session pname Hp Hn Hafter).
  reflexivity.
Qed.

Lemma process_matched_ignoring_case_witness :
  dict_get Z.eq_dec 3
    [(0, Master 0); (1, System 1 system_sounds); (2, Session 2 chrome);
     (3, Session 3 spotify); (4, SessionGroup 4 [firefox])]
  = Some (Session 3 spotify).
Proof.
  apply (process_matched_ignoring_case
           (mkWorld default_mapping_txt
              [system_sounds; chrome; firefox; spotify])
           (blank 5 false)
           (mkControl (Str.split newline default_mapping_txt) 5
              None None false []
              [(KStr "master", 0); (KStr "system", 1); (KStr "chrome.exe", 2);
               (KStr "spotify.exe", 3); (KStr "unmapped", 4)]
              (Some [system_sounds; chrome; firefox; spotify])
              (Some [(0, Master 0); (1, System 1 system_sounds);
                     (2, Session 2 chrome); (3, Session 3 spotify);
                     (4, SessionGroup 4 [firefox])]))
           _ 3 "spotify.exe" [system_sounds; chrome; firefox] [] spotify
           "Spotify.exe").
  - vm_compute. reflexivity.
  - reflexivity.
  - simpl. lia.
  - vm_compute. reflexivity.
  - intros later Hlater. simpl in Hlater.
    assert (later = 4) as -> by lia. vm_compute. discriminate.
  - discriminate.
  - discriminate.
  - discriminate.
  - reflexivity.
  - reflexivity.
  - reflexivity.
  - intros later n [].
Defined.

(** X8.  The last slider that declares a comma-separated list of names is
    bound to a group of the live sessions those names select, in the order
    of the names: each name, in lower case, selects the last live session
    of that process name, the names [master], [system] and [unmapped] select
    nothing, and a name that is not running is passed over.  When no name
    selects a session the slider has no entry. *)
Theorem group_resolution :
  forall (w : World) (self self' : Control)
         (session_dict : dict Z SessionObject) (idx : Z) (apps : list string),
    get_mapping w self = Ok self' ->
    sessions self' = Some session_dict ->
    0 <= idx < sliders self ->
    declaration (Str.split newline (config_text w)) idx = Ok (KTuple apps) ->
    (forall later, idx < later < sliders self ->
       declaration (Str.split newline (config_text w)) later
       <> Ok (KTuple apps)) ->
    dict_get Z.eq_dec idx session_dict =
    match group_members (live_sessions w) apps with
    | [] => None
    | members => Some (SessionGroup idx members)
    end.
Proof.
  intros w self self' sd idx apps Hpass Hsessions Hidx Hdecl Hlater.
  pose proof (last_declared_of_last _ _ _ _ Hidx Hdecl Hlater) as Hlast.
  destruct (slider_entry_last w self self' sd idx (KTuple apps)
              Hpass Hsessions Hlast) as [sys [_ [Hbound _]]].
  rewrite Hbound by discriminate. simpl.
  rewrite group_hits_members. reflexivity.
Qed.

Lemma group_resolution_witness :
  dict_get Z.eq_dec 2 [(0, Master 0); (2, SessionGroup 2 [chrome])]
  = match group_members (live_sessions group_scenario)
            ["chrome.exe"; "discord.exe"] with
    | [] => None
    | members => Some (SessionGroup 2 members)
    end.
Proof.
  apply (group_resolution group_scenario (blank 4 false)
           (mkControl (Str.split newline (config_text group_scenario)) 4
              None None false []
              [(KStr "master", 0); (KStr "Unmapped", 1);
               (KTuple ["chrome.exe"; "discord.exe"], 2); (KStr "vlc.exe", 3)]
              (Some (live_sessions group_scenario))
              (Some [(0, Master 0); (2, SessionGroup 2 [chrome])]))).
  - vm_compute. reflexivity.
  - reflexivity.
  - simpl. lia.
  - vm_compute. reflexivity.
  - intros later Hlater. simpl in Hlater.
    assert (later = 3) as -> by lia. vm_compute. discriminate.
Defined.

(** X9.  The word [unmapped] is recognised as the catch-all only when it is
    written in lower case: a slider declared with another casing of it, such
    as [Unmapped], is bound to nothing, neither to a group of the unclaimed
    sessions nor to a process of that name. *)
Theorem unmapped_is_case_sensitive :
  forall (w : World) (self self' : Control)
         (session_dict : dict Z SessionObject) (idx : Z) (name : string),
    get_mapping w self = Ok self' ->
    sessions self' = Some session_dict ->
    declaration (Str.split newline (config_text w)) idx = Ok (KStr name) ->
    Str.lower name = "unmapped" ->
    name <> "unmapped" ->
    dict_get Z.eq_dec idx session_dict = None.
Proof.
  intros w self self' sd idx name Hpass Hsessions Hdecl Hlower Hname.
  destruct (option_Z_eq_dec
              (last_declared (Str.split newline (config_text w)) (KStr name)
                 (range (sliders self))) (Some idx)) as [Hlast | Hlast].
  - destruct (slider_entry_last w self self' sd idx (KStr name)
                Hpass Hsessions Hlast) as [sys [_ [Hbound _]]].
    rewrite Hbound by congruence. simpl. rewrite Hlower. reflexivity.
  - exact (slider_entry_shadowed w self self' sd idx (KStr name)
             Hpass Hsessions Hdecl Hlast).
Qed.

Lemma unmapped_is_case_sensitive_witness :
  dict_get Z.eq_dec 1 [(0, Master 0); (2, SessionGroup 2 [chrome])] = None.
Proof.
  apply (unmapped_is_case_sensitive group_scenario (blank 4 false)
           (mkControl (Str.split newline (config_text group_scenario)) 4
              None None false []
              [(KStr "master", 0); (KStr "Unmapped", 1);
               (KTuple ["chrome.exe"; "discord.exe"], 2); (KStr "vlc.exe", 3)]
              (Some (live_sessions group_scenario))
              (Some [(0, Master 0); (2, SessionGroup 2 [chrome])]))
           [(0, Master 0); (2, SessionGroup 2 [chrome])] 1 "Unmapped").
  - vm_compute. reflexivity.
  - reflexivity.
  - reflexivity.
  - reflexivity.
  - discriminate.
Defined.

(** ** The unmapped group *)

Lemma build_active_sessions_entries (found : list AudioSession)
    (acc : dict string AudioSession) (name : string) (session : AudioSession) :
  In (name, session) (build_active_sessions found acc) ->
  In (name, session) acc
  \/ (In session found
      /\ exists n, Process session = Some n /\ name = Str.lower n).
Proof.
  revert acc. induction found as [| x found IH]; intros acc; simpl.
  - intros H. left. exact H.
  - destruct (Process x) as [n |] eqn:E; intros H;
      destruct (IH _ H) as [Hacc | [Hin Hn]].
    + apply dict_set_In in Hacc. destruct Hacc as [[-> ->] | Hacc].
      * right. split; [left; reflexivity |]. exists n.
        split; [exact E | reflexivity].
      * left. exact Hacc.
    + right. split; [right; exact Hin | exact Hn].
    + left. exact Hacc.
    + right. split; [right; exact Hin | exact Hn].
Qed.

Lemma build_active_sessions_keys_NoDup (found : list AudioSession)
    (acc : dict string AudioSession) :
  NoDup (dict_keys acc) -> NoDup (dict_keys (build_active_sessions found acc)).
Proof.
  revert acc. induction found as [| x found IH]; intros acc H; simpl.
  - exact H.
  - destruct (Process x); apply IH; [apply dict_set_keys_NoDup |]; exact H.
Qed.

(** A session under a name of [active_sessions] is live, has a process, and
    is the last live session of that name. *)
Lemma active_session_spec (found : list AudioSession) (session : AudioSession) :
  In session (dict_values (build_active_sessions found [])) ->
  In session found
  /\ exists n, Process session = Some n
               /\ last_with_name (Str.lower n) found = Some session.
Proof.
  intros H. apply in_map_iff in H. destruct H as [[name s] [E Hentry]].
  simpl in E. subst s.
  destruct (build_active_sessions_entries _ _ _ _ Hentry)
    as [[] | [Hin [n [Hp ->]]]].
  split; [exact Hin |]. exists n. split; [exact Hp |].
  apply (dict_In_get string_dec) in Hentry;
    [| apply build_active_sessions_keys_NoDup; constructor].
  rewrite build_active_sessions_get in Hentry.
  destruct (last_with_name (Str.lower n) found); [exact Hentry |].
  discriminate Hentry.
Qed.

Lemma active_session_value (found : list AudioSession) (name : string)
    (session : AudioSession) :
  last_with_name name found = Some session ->
  In session (dict_values (build_active_sessions found [])).
Proof.
  intros H. apply in_map_iff. exists (name, session).
  split; [reflexivity |]. apply (dict_get_In string_dec).
  rewrite build_active_sessions_get, H. reflexivity.
Qed.

Lemma active_sessions_values_NoDup (found : list AudioSession) :
  NoDup (dict_values (build_active_sessions found [])).
Proof.
  pose proof (build_active_sessions_keys_NoDup found [] (NoDup_nil _)) as Hkeys.
  assert (Hname : forall name session,
             In (name, session) (build_active_sessions found []) ->
             exists n, Process session = Some n /\ name = Str.lower n).
  { intros name session H.
    destruct (build_active_sessions_entries _ _ _ _ H) as [[] | [_ Hn]].
    exact Hn. }
  induction (build_active_sessions found []) as [| [name session] d IH];
    simpl in *; [constructor |].
  inversion Hkeys as [| ? ? Hfresh Hrest]; subst. constructor.
  - intros Hin. apply in_map_iff in Hin. destruct Hin as [[name' s] [E Hin]].
    simpl in E. subst s. apply Hfresh.
    destruct (Hname name session (or_introl eq_refl)) as [n [Hp ->]].
    destruct (Hname name' session (or_intror Hin)) as [n' [Hp' ->]].
    assert (n' = n) by congruence. subst n'.
    apply in_map_iff. exists (Str.lower n, session).
    split; [reflexivity | exact Hin].
  - apply IH; [exact Hrest |].
    intros name' s H. apply (Hname name' s). right. exact H.
Qed.

Lemma list_remove_NoDup (ses : AudioSession) (l : list AudioSession) :
  NoDup l -> ~ In ses (list_remove ses l).
Proof.
  induction l as [| x l IH]; simpl; intros Hnd; [intros [] |].
  inversion Hnd as [| ? ? Hfresh Hrest]; subst.
  destruct (AudioSession_eq_dec ses x) as [-> | N]; [exact Hfresh |].
  intros [E | H]; [symmetry in E; contradiction | exact (IH Hrest H)].
Qed.

Lemma list_remove_keeps (ses x : AudioSession) (l : list AudioSession) :
  In x l -> x <> ses -> In x (list_remove ses l).
Proof.
  induction l as [| y l IH]; simpl; [intros [] |].
  intros Hin Hne. destruct (AudioSession_eq_dec ses y) as [-> | N].
  - destruct Hin as [E | Hin]; [symmetry in E; contradiction | exact Hin].
  - destruct Hin as [-> | Hin]; [left; reflexivity | right; exact (IH Hin Hne)].
Qed.

Lemma not_mapped_NoDup (found mapped : list AudioSession) :
  NoDup (not_mapped (build_active_sessions found []) mapped).
Proof.
  unfold not_mapped. apply NoDup_filter. apply active_sessions_values_NoDup.
Qed.

(** The entry of the [unmapped] slider. *)
Lemma unmapped_entry (w : World) (self self' : Control)
    (session_dict : dict Z SessionObject) (unmapped_idx : Z) :
  get_mapping w self = Ok self' ->
  sessions self' = Some session_dict ->
  dict_get target_key_eq_dec (KStr "unmapped") (target_idxs self')
  = Some unmapped_idx ->
  exists system_session setting,
    find_system_session (live_sessions w) = Ok system_session
    /\ get_setting (Str.split newline (config_text w)) "system in unmapped"
       = Ok setting
    /\ session_dict =
       dict_set Z.eq_dec unmapped_idx
         (SessionGroup unmapped_idx
            (unmapped_members (build_active_sessions (live_sessions w) [])
               system_session
               (snd (resolve_items
                       (build_active_sessions (live_sessions w) [])
                       system_session (target_idxs self')))
               setting))
         (fst (resolve_items (build_active_sessions (live_sessions w) [])
                 system_session (target_idxs self')))
    /\ NoDup (dict_values (target_idxs self'))
    /\ dict_get Z.eq_dec unmapped_idx
         (fst (resolve_items (build_active_sessions (live_sessions w) [])
                 system_session (target_idxs self'))) = None.
Proof.
  intros Hpass Hsessions Hunmapped.
  destruct (get_mapping_ok w self self' Hpass)
    as [table [sys [sd [Ht [Hs [Hu [Htable [Hsd _]]]]]]]].
  rewrite Hsessions in Hsd. injection Hsd as ->. rewrite Htable in *.
  apply resolve_unmapped_ok in Hu.
  destruct Hu as [[Hnone _] | [u [setting [Hget [Hsetting ->]]]]];
    [congruence |].
  rewrite Hunmapped in Hget. injection Hget as <-.
  assert (Hnd : NoDup (dict_values table)).
  { apply (read_target_idxs_values_NoDup _ _ _ _ Ht).
    - apply range_NoDup.
    - constructor.
    - intros v []. }
  exists sys, setting. repeat split; try assumption.
  unfold resolve_items.
  rewrite (resolve_items_get _ _ table _ (KStr "unmapped") unmapped_idx Hnd
             (dict_get_In _ _ _ _ Hunmapped)).
  reflexivity.
Qed.

(** X10.  Every member of the unmapped group is a live session that has a
    process, the last one listed under its process name: a session without a
    process, as the system sounds session usually is, is never a member,
    whatever [system in unmapped] says. *)
Theorem unmapped_members_have_process :
  forall (w : World) (self self' : Control)
         (session_dict : dict Z SessionObject) (unmapped_idx : Z)
         (members : list AudioSession) (session : AudioSession),
    get_mapping w self = Ok self' ->
    sessions self' = Some session_dict ->
    dict_get target_key_eq_dec (KStr "unmapped") (target_idxs self')
    = Some unmapped_idx ->
    dict_get Z.eq_dec unmapped_idx session_dict
    = Some (SessionGroup unmapped_idx members) ->
    In session members ->
    In session (live_sessions w)
    /\ exists n, Process session = Some n
                 /\ last_with_name (Str.lower n) (live_sessions w)
                    = Some session.
Proof.
  intros w self self' sd u members session Hpass Hsessions Hunmapped
         Hentry Hmember.
  destruct (unmapped_entry w self self' sd u Hpass Hsessions Hunmapped)
    as [sys [setting [_ [_ [-> _]]]]].
  rewrite dict_get_set_same in Hentry. injection Hentry as <-.
  apply unmapped_members_not_mapped in Hmember.
  destruct Hmember as [Hactive _].
  exact (active_session_spec _ _ Hactive).
Qed.

Lemma unmapped_members_have_process_witness :
  In firefox (live_sessions (scenario true false))
  /\ exists n, Process firefox = Some n
               /\ last_with_name (Str.lower n)
                    (live_sessions (scenario true false)) = Some firefox.
Proof.
  apply (unmapped_members_have_process (scenario true false) (blank 4 false)
           (mkControl (Str.split newline (config_text (scenario true false)))
              4 None None false []
              [(KStr "master", 0); (KStr "system", 1); (KStr "chrome.exe", 2);
               (KStr "unmapped", 3)]
              (Some (live_sessions (scenario true false)))
              (Some [(0, Master 0); (1, System 1 system_sounds);
                     (2, Session 2 chrome); (3, SessionGroup 3 [firefox])]))
           [(0, Master 0); (1, System 1 system_sounds);
            (2, Session 2 chrome); (3, SessionGroup 3 [firefox])]
           3 [firefox] firefox).
  - vm_compute. reflexivity.
  - reflexivity.
  - reflexivity.
  - reflexivity.
  - left. reflexivity.
Defined.

(** X11.  When the value of [system in unmapped] is [false], in any casing,
    the system sounds session is not a member of the unmapped group, even if
    no slider claimed it. *)
Theorem system_left_out_when_false :
  forall (w : World) (self self' : Control)
         (session_dict : dict Z SessionObject) (unmapped_idx : Z)
         (setting : string) (system_session : AudioSession),
    get_mapping w self = Ok self' ->
    sessions self' = Some session_dict ->
    dict_get target_key_eq_dec (KStr "unmapped") (target_idxs self')
    = Some unmapped_idx ->
    get_setting (Str.split newline (config_text w)) "system in unmapped"
    = Ok setting ->
    Str.lower setting = "false" ->
    find_system_session (live_sessions w) = Ok system_session ->
    exists members,
      dict_get Z.eq_dec unmapped_idx session_dict
      = Some (SessionGroup unmapped_idx members)
      /\ ~ In system_session members.
Proof.
  intros w self self' sd u setting sys Hpass Hsessions Hunmapped Hsetting
         Hfalse Hsys.
  destruct (unmapped_entry w self self' sd u Hpass Hsessions Hunmapped)
    as [sys' [setting' [Hsys' [Hsetting' [-> _]]]]].
  rewrite Hsys in Hsys'. injection Hsys' as <-.
  rewrite Hsetting in Hsetting'. injection Hsetting' as <-.
  eexists. split; [apply dict_get_set_same |].
  unfold unmapped_members. rewrite Hfalse. simpl.
  unfold session_in at 1.
  destruct (in_dec AudioSession_eq_dec sys _) as [Hin | Hout].
  - apply list_remove_NoDup. apply not_mapped_NoDup.
  - exact Hout.
Qed.

Lemma system_left_out_when_false_witness :
  exists members,
    dict_get Z.eq_dec 1 [(0, Session 0 chrome); (1, SessionGroup 1 [firefox])]
    = Some (SessionGroup 1 members)
    /\ ~ In audiodg members.
Proof.
  apply (system_left_out_when_false toggle_scenario (blank 2 false)
           (mkControl (Str.split newline (config_text toggle_scenario))
              2 None None false []
              [(KStr "chrome.exe", 0); (KStr "unmapped", 1)]
              (Some (live_sessions toggle_scenario))
              (Some [(0, Session 0 chrome); (1, SessionGroup 1 [firefox])]))
           [(0, Session 0 chrome); (1, SessionGroup 1 [firefox])] 1 "FALSE").
  - vm_compute. reflexivity.
  - reflexivity.
  - reflexivity.
  - vm_compute. reflexivity.
  - reflexivity.
  - vm_compute. reflexivity.
Defined.

Lemma dict_set_keeps {K V : Type}
    (K_eq_dec : forall x y : K, {x = y} + {x <> y})
    (k k' : K) (v v' : V) (d : dict K V) :
  In (k', v') d -> k' <> k -> In (k', v') (dict_set K_eq_dec k v d).
Proof.
  intros Hin Hne. induction d as [| [k0 v0] d IH]; simpl; [destruct Hin |].
  destruct (K_eq_dec k k0) as [-> | N].
  - destruct Hin as [E | Hin]; [injection E as -> ->; contradiction |].
    right. exact Hin.
  - destruct Hin as [E | Hin]; [left; exact E | right; exact (IH Hin)].
Qed.

Lemma dict_set_holds {K V : Type}
    (K_eq_dec : forall x y : K, {x = y} + {x <> y})
    (k : K) (v : V) (d : dict K V) :
  In (k, v) (dict_set K_eq_dec k v d).
Proof.
  apply (dict_get_In K_eq_dec). apply dict_get_set_same.
Qed.

Section ResolveItemsBacked.

Variable active_sessions : dict string AudioSession.
Variable system_session : AudioSession.

Let step := resolve_item active_sessions system_session.

(** With distinct slider indices no turn of the loop replaces an entry, so
    every session it records as mapped stays controlled by a stored target. *)
Lemma resolve_items_backed (items : dict target_key Z)
    (st : dict Z SessionObject * list AudioSession) :
  NoDup (dict_values items) ->
  (forall k, In k (dict_keys (fst st)) -> ~ In k (dict_values items)) ->
  claims_backed st -> claims_backed (fold_left step items st).
Proof.
  revert st. induction items as [| [target idx] items IH];
    intros st Hnd Hfresh Hinv; simpl; [exact Hinv |].
  inversion Hnd as [| ? ? Hidx Hrest]; subst.
  destruct st as [sd m]. unfold step at 2. rewrite resolve_item_spec.
  assert (Hnew : ~ In idx (dict_keys sd)).
  { intros Hin. apply (Hfresh idx Hin). left. reflexivity. }
  apply IH; [exact Hrest | |].
  - intros k Hk. simpl in Hk.
    destruct (bound_target _ _ _ _).
    + apply dict_set_keys in Hk. destruct Hk as [-> | Hk]; [exact Hidx |].
      intros Hin. apply (Hfresh k Hk). right. exact Hin.
    + intros Hin. apply (Hfresh k Hk). right. exact Hin.
  - intros session Hin. simpl in Hin. apply in_app_or in Hin.
    destruct Hin as [Hold | Hclaimed].
    + destruct (Hinv session Hold) as [i [app [Hentry Hc]]].
      exists i, app. split; [| exact Hc]. simpl in *.
      destruct (bound_target _ _ _ _); [| exact Hentry].
      apply dict_set_keeps; [exact Hentry |].
      intros ->. apply Hnew. apply in_map_iff. exists (idx, app).
      split; [reflexivity | exact Hentry].
    + simpl. destruct (bound_target _ _ _ _) as [app |]; [| destruct Hclaimed].
      exists idx, app. split; [apply dict_set_holds | exact Hclaimed].
Qed.

End ResolveItemsBacked.

(** X12.  With an [unmapped] slider no live process is left without a
    slider: every session that is the last one listed under its process name
    is a member of the unmapped group or is controlled by the target of
    another slider (the one exception being the system sounds session when
    [system in unmapped] is [false]). *)
Theorem every_active_session_is_covered :
  forall (w : World) (self self' : Control)
         (session_dict : dict Z SessionObject) (unmapped_idx : Z)
         (setting name : string) (system_session session : AudioSession),
    get_mapping w self = Ok self' ->
    sessions self' = Some session_dict ->
    dict_get target_key_eq_dec (KStr "unmapped") (target_idxs self')
    = Some unmapped_idx ->
    get_setting (Str.split newline (config_text w)) "system in unmapped"
    = Ok setting ->
    find_system_session (live_sessions w) = Ok system_session ->
    last_with_name name (live_sessions w) = Some session ->
    session <> system_session \/ Str.lower setting <> "false" ->
    (exists members,
        dict_get Z.eq_dec unmapped_idx session_dict
        = Some (SessionGroup unmapped_idx members)
        /\ In session members)
    \/ (exists idx app,
           idx <> unmapped_idx
           /\ In (idx, app) session_dict
           /\ In session (claimed_by app)).
Proof.
  intros w self self' sd u setting name sys session Hpass Hsessions Hunmapped
         Hsetting Hsys Hlast Hkept.
  destruct (unmapped_entry w self self' sd u Hpass Hsessions Hunmapped)
    as [sys' [setting' [Hsys' [Hsetting' [-> [Hnd Hfree]]]]]].
  rewrite Hsys in Hsys'. injection Hsys' as <-.
  rewrite Hsetting in Hsetting'. injection Hsetting' as <-.
  set (active := build_active_sessions (live_sessions w) []) in *.
  set (st := resolve_items active sys (target_idxs self')) in *.
  destruct (in_dec AudioSession_eq_dec session (snd st)) as [Hmapped | Hfresh].
  - right.
    assert (Hbacked : claims_backed st).
    { unfold st, resolve_items. apply resolve_items_backed.
      - exact Hnd.
      - intros k [].
      - intros s []. }
    destruct (Hbacked session Hmapped) as [idx [app [Hentry Hclaimed]]].
    assert (Hne : idx <> u).
    { intros ->. assert (Hk : In u (dict_keys (fst st))).
      { apply in_map_iff. exists (u, app). split; [reflexivity | exact Hentry]. }
      apply (dict_get_key Z.eq_dec) in Hk. destruct Hk as [v Hv].
      congruence. }
    exists idx, app. repeat split; [exact Hne | | exact Hclaimed].
    apply dict_set_keeps; assumption.
  - left. eexists. split; [apply dict_get_set_same |].
    assert (Hin : In session (not_mapped active (snd st))).
    { apply not_mapped_spec. split; [| exact Hfresh].
      exact (active_session_value _ _ _ Hlast). }
    unfold unmapped_members.
    destruct (String.eqb_spec (Str.lower setting) "false") as [E | _];
      [| exact Hin].
    simpl. destruct (session_in sys (not_mapped active (snd st)));
      [| exact Hin].
    apply list_remove_keeps; [exact Hin |].
    destruct Hkept as [H | H]; [exact H | contradiction].
Qed.

Lemma every_active_session_is_covered_witness :
  (exists members,
      dict_get Z.eq_dec 1 [(0, Session 0 chrome); (1, SessionGroup 1 [firefox])]
      = Some (SessionGroup 1 members)
      /\ In chrome members)
  \/ (exists idx app,
         idx <> 1
         /\ In (idx, app)
              [(0, Session 0 chrome); (1, SessionGroup 1 [firefox])]
         /\ In chrome (claimed_by app)).
Proof.
  apply (every_active_session_is_covered toggle_scenario (blank 2 false)
           (mkControl (Str.split newline (config_text toggle_scenario))
              2 None None false []
              [(KStr "chrome.exe", 0); (KStr "unmapped", 1)]
              (Some (live_sessions toggle_scenario))
              (Some [(0, Session 0 chrome); (1, SessionGroup 1 [firefox])]))
           [(0, Session 0 chrome); (1, SessionGroup 1 [firefox])] 1 "FALSE"
           "chrome.exe" audiodg chrome).
  - vm_compute. reflexivity.
  - reflexivity.
  - reflexivity.
  - vm_compute. reflexivity.
  - vm_compute. reflexivity.
  - vm_compute. reflexivity.
  - left. discriminate.
Defined.

(** ** The shape of the resolved table *)

Lemma bound_target_idx (active_sessions : dict string AudioSession)
    (system_session : AudioSession) (target : target_key) (idx : Z)
    (app : SessionObject) :
  bound_target active_sessions system_session target idx = Some app ->
  idx_of app = idx.
Proof.
  destruct target as [name | apps]; simpl.
  - destruct (String.eqb (Str.lower name) "master");
      [intros H; injection H as <-; reflexivity |].
    destruct (String.eqb (Str.lower name) "system");
      [intros H; injection H as <-; reflexivity |].
    destruct (String.eqb (Str.lower name) "unmapped"); [discriminate |].
    destruct (dict_get string_dec (Str.lower name) active_sessions);
      simpl; [| discriminate].
    intros H. injection H as <-. reflexivity.
  - destruct (group_hits active_sessions apps); [discriminate |].
    intros H. injection H as <-. reflexivity.
Qed.

Section ResolveItemsShape.

Variable active_sessions : dict string AudioSession.
Variable system_session : AudioSession.

Let step := resolve_item active_sessions system_session.

Lemma resolve_items_shape (items : dict target_key Z)
    (st : dict Z SessionObject * list AudioSession) :
  NoDup (dict_keys (fst st)) ->
  (forall idx app, In (idx, app) (fst st) -> idx_of app = idx) ->
  NoDup (dict_keys (fst (fold_left step items st)))
  /\ (forall idx app, In (idx, app) (fst (fold_left step items st)) ->
                      idx_of app = idx).
Proof.
  revert st. induction items as [| [target idx] items IH];
    intros st Hnd Hidx; simpl; [split; assumption |].
  destruct st as [sd m]. unfold step at 2 4. rewrite resolve_item_spec.
  apply IH; simpl in *.
  - destruct (bound_target _ _ _ _); [apply dict_set_keys_NoDup |]; exact Hnd.
  - destruct (bound_target _ _ _ _) as [new |] eqn:E; [| exact Hidx].
    intros i app Hin. apply dict_set_In in Hin.
    destruct Hin as [[-> ->] | Hin]; [| exact (Hidx i app Hin)].
    exact (bound_target_idx _ _ _ _ _ E).
Qed.

End ResolveItemsShape.

Lemma dict_values_idx (d : dict Z SessionObject) :
  (forall idx app, In (idx, app) d -> idx_of app = idx) ->
  map idx_of (dict_values d) = dict_keys d.
Proof.
  induction d as [| [idx app] d IH]; simpl; intros H; [reflexivity |].
  rewrite (H idx app (or_introl eq_refl)), IH; [reflexivity |].
  intros i a Hin. apply H. right. exact Hin.
Qed.

Lemma range_length (n : Z) : List.length (range n) = Z.to_nat n.
Proof.
  unfold range. rewrite length_map, length_seq. reflexivity.
Qed.

(** X13.  After a pass, [get_sessions] returns at most [sliders] targets, and
    no two of them were built with the same slider index: every target
    carries the index under which the table stores it, and the table stores
    at most one target per index. *)
Theorem get_sessions_one_per_slider :
  forall (w : World) (self self' : Control),
    get_mapping w self = Ok self' ->
    exists session_dict,
      sessions self' = Some session_dict
      /\ get_sessions self' = Ok (dict_values session_dict)
      /\ (forall idx app, In (idx, app) session_dict -> idx_of app = idx)
      /\ NoDup (map idx_of (dict_values session_dict))
      /\ Z.of_nat (List.length (dict_values session_dict))
         <= Z.max 0 (sliders self).
Proof.
  intros w self self' Hpass.
  destruct (get_mapping_ok w self self' Hpass)
    as [table [sys [sd [Ht [_ [Hu [_ [Hsd _]]]]]]]].
  exists sd. split; [exact Hsd |].
  split; [unfold get_sessions; rewrite Hsd; reflexivity |].
  assert (Hshape : NoDup (dict_keys sd)
                   /\ forall idx app, In (idx, app) sd -> idx_of app = idx).
  { pose proof (resolve_items_shape
                  (build_active_sessions (live_sessions w) []) sys table
                  ([], []) (NoDup_nil _)) as Hloop.
    destruct Hloop as [Hnd Hidx]; [intros ? ? [] |].
    apply resolve_unmapped_ok in Hu.
    destruct Hu as [[_ ->] | [u [setting [_ [_ ->]]]]].
    - split; assumption.
    - split; [apply dict_set_keys_NoDup; exact Hnd |].
      intros i app Hin. apply dict_set_In in Hin.
      destruct Hin as [[-> ->] | Hin]; [reflexivity | exact (Hidx i app Hin)]. }
  destruct Hshape as [Hnd Hidx].
  split; [exact Hidx |].
  rewrite (dict_values_idx sd Hidx). split; [exact Hnd |].
  assert (Hlen : (List.length (dict_keys sd)
                  <= List.length (range (sliders self)))%nat).
  { apply NoDup_incl_length; [exact Hnd |].
    intros key Hkey.
    pose proof (resolved_keys_are_values _ _ _ _ _ key Hu Hkey) as Hvalue.
    destruct (read_target_idxs_values _ _ _ _ key Ht Hvalue) as [[] | H].
    exact H. }
  rewrite range_length in Hlen. unfold dict_values, dict_keys in *.
  rewrite length_map in *. lia.
Qed.

Lemma get_sessions_one_per_slider_witness :
  exists session_dict,
    sessions
      (mkControl (Str.split newline (config_text (scenario true false)))
         4 None None false []
         [(KStr "master", 0); (KStr "system", 1); (KStr "chrome.exe", 2);
          (KStr "unmapped", 3)]
         (Some (live_sessions (scenario true false)))
         (Some [(0, Master 0); (1, System 1 system_sounds);
                (2, Session 2 chrome); (3, SessionGroup 3 [firefox])]))
    = Some session_dict
    /\ get_sessions
         (mkControl (Str.split newline (config_text (scenario true false)))
            4 None None false []
            [(KStr "master", 0); (KStr "system", 1); (KStr "chrome.exe", 2);
             (KStr "unmapped", 3)]
            (Some (live_sessions (scenario true false)))
            (Some [(0, Master 0); (1, System 1 system_sounds);
                   (2, Session 2 chrome); (3, SessionGroup 3 [firefox])]))
       = Ok (dict_values session_dict)
    /\ (forall idx app, In (idx, app) session_dict -> idx_of app = idx)
    /\ NoDup (map idx_of (dict_values session_dict))
    /\ Z.of_nat (List.length (dict_values session_dict))
       <= Z.max 0 (sliders (blank 4 false)).
Proof.
  apply (get_sessions_one_per_slider (scenario true false) (blank 4 false)).
  vm_compute. reflexivity.
Defined.

(** ** Searching the table *)

Section FindSessionFacts.

Variable name_of : SessionObject -> string.

Lemma find_in_sound (items : dict Z SessionObject) (session_name : string)
    (case_sensitive : bool) (session : SessionObject) :
  find_in name_of items session_name case_sensitive = Some session ->
  In session (dict_values items)
  /\ (if case_sensitive then name_of session = session_name
      else Str.lower (name_of session) = Str.lower session_name).
Proof.
  induction items as [| [idx app] items IH]; simpl; [discriminate |].
  destruct case_sensitive; simpl.
  - destruct (String.eqb_spec (name_of app) session_name) as [E | _].
    + intros H. injection H as <-. split; [left; reflexivity | exact E].
    + intros H. destruct (IH H) as [Hin Hn]. split; [right; exact Hin | exact Hn].
  - destruct (String.eqb_spec (Str.lower (name_of app))
                (Str.lower session_name)) as [E | _].
    + intros H. injection H as <-. split; [left; reflexivity | exact E].
    + intros H. destruct (IH H) as [Hin Hn]. split; [right; exact Hin | exact Hn].
Qed.

Lemma find_in_complete (items : dict Z SessionObject) (session_name : string)
    (case_sensitive : bool) (session : SessionObject) :
  In session (dict_values items) ->
  (if case_sensitive then name_of session = session_name
   else Str.lower (name_of session) = Str.lower session_name) ->
  find_in name_of items session_name case_sensitive <> None.
Proof.
  induction items as [| [idx app] items IH]; simpl; [intros [] |].
  intros [-> | Hin] Hname.
  - destruct case_sensitive; simpl.
    + rewrite Hname, String.eqb_refl. discriminate.
    + rewrite Hname, String.eqb_refl. discriminate.
  - destruct case_sensitive; simpl.
    + destruct (String.eqb _ _); [discriminate | exact (IH Hin Hname)].
    + destruct (String.eqb _ _); [discriminate | exact (IH Hin Hname)].
Qed.

End FindSessionFacts.

(** X14.  [find_session] returns a target of the table whose name is the
    one asked for (compared in lower case unless [case_sensitive]), and
    [None] only when no target of the table has such a name.  What the case
    sensitive search finds, the default search does not miss: it returns a
    target too, of the same name up to case. *)
Theorem find_session_spec :
  forall (name_of : SessionObject -> string) (self : Control)
         (session_dict : dict Z SessionObject) (session_name : string),
    sessions self = Some session_dict ->
    (forall case_sensitive session,
        find_session name_of self session_name case_sensitive
        = Ok (Some session) ->
        In session (dict_values session_dict)
        /\ (if case_sensitive then name_of session = session_name
            else Str.lower (name_of session) = Str.lower session_name))
    /\ (forall case_sensitive,
           find_session name_of self session_name case_sensitive = Ok None ->
           forall session,
             In session (dict_values session_dict) ->
             if case_sensitive then name_of session <> session_name
             else Str.lower (name_of session) <> Str.lower session_name)
    /\ (forall exact,
           find_session name_of self session_name true = Ok (Some exact) ->
           exists found,
             find_session name_of self session_name false = Ok (Some found)
             /\ Str.lower (name_of found) = Str.lower (name_of exact)).
Proof.
  intros name_of self sd session_name Hsessions.
  unfold find_session. rewrite Hsessions. split; [| split].
  - intros case_sensitive session H. injection H as H.
    exact (find_in_sound _ _ _ _ _ H).
  - intros case_sensitive H session Hin. injection H as H.
    destruct case_sensitive; intros Hname.
    + exact (find_in_complete name_of sd session_name true session Hin Hname H).
    + exact (find_in_complete name_of sd session_name false session Hin Hname H).
  - intros exact H. injection H as H.
    destruct (find_in_sound _ _ _ _ _ H) as [Hin Hname].
    destruct (find_in name_of sd session_name false) as [found |] eqn:E.
    + exists found. split; [reflexivity |].
      destruct (find_in_sound _ _ _ _ _ E) as [_ Hfound].
      simpl in Hfound, Hname. congruence.
    + exfalso.
      apply (find_in_complete name_of sd session_name false exact Hin);
        [simpl in *; congruence | exact E].
Qed.

Lemma find_session_spec_witness :
  (forall case_sensitive session,
      find_session example_name
        (mkControl [] 2 None None false [] [] None
           (Some [(0, Master 0); (1, Session 1 spotify)]))
        "spotify.EXE" case_sensitive
      = Ok (Some session) ->
      In session (dict_values [(0, Master 0); (1, Session 1 spotify)])
      /\ (if case_sensitive then example_name session = "spotify.EXE"
          else Str.lower (example_name session) = Str.lower "spotify.EXE"))
  /\ (forall case_sensitive,
         find_session example_name
           (mkControl [] 2 None None false [] [] None
              (Some [(0, Master 0); (1, Session 1 spotify)]))
           "spotify.EXE" case_sensitive = Ok None ->
         forall session,
           In session (dict_values [(0, Master 0); (1, Session 1 spotify)]) ->
           if case_sensitive then example_name session <> "spotify.EXE"
           else Str.lower (example_name session) <> Str.lower "spotify.EXE")
  /\ (forall exact,
         find_session example_name
           (mkControl [] 2 None None false [] [] None
              (Some [(0, Master 0); (1, Session 1 spotify)]))
           "spotify.EXE" true = Ok (Some exact) ->
         exists found,
           find_session example_name
             (mkControl [] 2 None None false [] [] None
                (Some [(0, Master 0); (1, Session 1 spotify)]))
             "spotify.EXE" false = Ok (Some found)
           /\ Str.lower (example_name found) = Str.lower (example_name exact)).
Proof.
  apply (find_session_spec example_name
           (mkControl [] 2 None None false [] [] None
              (Some [(0, Master 0); (1, Session 1 spotify)]))
           [(0, Master 0); (1, Session 1 spotify)] "spotify.EXE").
  reflexivity.
Defined.

Example find_session_examples :
  let self := mkControl [] 2 None None false [] [] None
                (Some [(0, Master 0); (1, Session 1 spotify)]) in
  find_session example_name self "spotify.EXE" false
  = Ok (Some (Session 1 spotify))
  /\ find_session example_name self "spotify.EXE" true = Ok None
  /\ find_session example_name self "Spotify.exe" true
     = Ok (Some (Session 1 spotify))
  /\ find_session example_name (blank 2 false) "Spotify.exe" false
     = Raise AttributeError.
Proof. repeat split; reflexivity. Qed.

(** ** More on the dispatcher *)

(** X15.  A batch that is too short for a bound slider stops there: the
    targets before it in the table have been served, [values[index]] raises
    [IndexError], and neither that target nor any later one is called. *)
Theorem set_volume_short_batch :
  forall (Mixer : Type)
         (app_set_volume : SessionObject -> float -> Mixer -> Mixer * result unit)
         (self : Control) (before after : dict Z SessionObject)
         (index : Z) (app : SessionObject) (values : list Z) (m m1 : Mixer),
    sessions self = Some (before ++ (index, app) :: after)%list ->
    dispatch Mixer app_set_volume (inverted self) values before m = (m1, Ok tt) ->
    Z.of_nat (List.length values) <= index ->
    set_volume Mixer app_set_volume self values m = (m1, Raise IndexError).
Proof.
  intros Mixer app_set_volume self before after index app values m m1
         Hsessions Hbefore Hshort.
  unfold set_volume. rewrite Hsessions, dispatch_app, Hbefore. simpl.
  unfold py_index.
  destruct (Z.ltb_spec index 0) as [Hneg | _]; [lia |].
  destruct (Z.ltb_spec index (Z.of_nat (List.length values))) as [Hlt | _];
    [lia |].
  rewrite andb_false_r. reflexivity.
Qed.

Lemma set_volume_short_batch_witness :
  set_volume call_log record_call
    (mkControl [] 3 None None false [] [] None
       (Some [(0, Master 0); (2, Session 2 chrome); (1, Session 1 firefox)]))
    [10; 20] [] =
  ([(Master 0, true_div 10 1023)], Raise IndexError).
Proof.
  apply (set_volume_short_batch call_log record_call
           (mkControl [] 3 None None false [] [] None
              (Some [(0, Master 0); (2, Session 2 chrome);
                     (1, Session 1 firefox)]))
           [(0, Master 0)] [(1, Session 1 firefox)] 2 (Session 2 chrome)
           [10; 20] [] [(Master 0, true_div 10 1023)]).
  - reflexivity.
  - reflexivity.
  - simpl. lia.
Defined.

Lemma device_volumes_checked :
  forallb (fun reading =>
             in_unit_interval (normalize false reading)
             && in_unit_interval (normalize true reading))%bool
          device_readings = true.
Proof. vm_compute. reflexivity. Qed.

(** X16.  For a raw reading between 0 and 1023 the volume handed to a target
    lies between 0.0 and 1.0 in binary64 arithmetic, inverted or not: the
    dispatcher needs no clamping on the range of the device. *)
Theorem normalize_in_unit_interval :
  forall (inv : bool) (reading : Z),
    0 <= reading <= 1023 ->
    PrimFloat.leb 0 (normalize inv reading) = true
    /\ PrimFloat.leb (normalize inv reading) 1 = true.
Proof.
  intros inv reading Hrange.
  pose proof device_volumes_checked as H.
  rewrite forallb_forall in H.
  specialize (H reading). unfold device_readings in H.
  assert (Hin : In reading (range 1024)) by (apply range_In; lia).
  apply H in Hin. apply andb_true_iff in Hin. destruct Hin as [Hf Ht].
  unfold in_unit_interval in Hf, Ht.
  apply andb_true_iff in Hf, Ht.
  destruct inv; [exact Ht | exact Hf].
Qed.

Lemma normalize_in_unit_interval_witness :
  PrimFloat.leb 0 (normalize true 512) = true
  /\ PrimFloat.leb (normalize true 512) 1 = true.
Proof.
  apply (normalize_in_unit_interval true 512). lia.
Defined.

Lemma device_volumes_increase :
  forallb (fun low =>
             forallb (fun high =>
                        if low <? high
                        then (PrimFloat.ltb (normalize false low)
                                (normalize false high)
                              && PrimFloat.ltb (normalize true high)
                                   (normalize true low))%bool
                        else true)
                     device_readings)
          device_readings = true.
Proof. vm_compute. reflexivity. Qed.

(** X17.  On the range of the device the volume follows the slider
    strictly: of two readings between 0 and 1023 the higher one gives the
    strictly higher volume, and the strictly lower one when the sliders are
    inverted, so no two readings give the same volume. *)
Theorem normalize_strictly_monotone :
  forall (low high : Z),
    0 <= low -> low < high -> high <= 1023 ->
    PrimFloat.ltb (normalize false low) (normalize false high) = true
    /\ PrimFloat.ltb (normalize true high) (normalize true low) = true.
Proof.
  intros low high Hlow Hlt Hhigh.
  pose proof device_volumes_increase as H.
  rewrite forallb_forall in H.
  assert (Hl : In low device_readings) by (apply range_In; lia).
  assert (Hh : In high device_readings) by (apply range_In; lia).
  specialize (H low Hl). rewrite forallb_forall in H.
  specialize (H high Hh).
  destruct (Z.ltb_spec low high) as [_ | Hge]; [| lia].
  apply andb_true_iff in H. exact H.
Qed.

Lemma normalize_strictly_monotone_witness :
  PrimFloat.ltb (normalize false 511) (normalize false 512) = true
  /\ PrimFloat.ltb (normalize true 512) (normalize true 511) = true.
Proof.
  apply (normalize_strictly_monotone 511 512); lia.
Defined.

Section DispatcherFrame.

Variable Mixer : Type.
Variable app_set_volume :
  SessionObject -> float -> Mixer -> Mixer * result unit.

Lemma dispatch_frame (inv : bool) (values values' : list Z)
    (items : dict Z SessionObject) (m : Mixer) :
  (forall index app, In (index, app) items ->
                     py_index values index = py_index values' index) ->
  dispatch Mixer app_set_volume inv values items m =
  dispatch Mixer app_set_volume inv values' items m.
Proof.
  revert m. induction items as [| [index app] items IH]; intros m Hsame;
    simpl; [reflexivity |].
  rewrite <- (Hsame index app (or_introl eq_refl)).
  destruct (py_index values index) as [reading |]; [| reflexivity].
  destruct (app_set_volume app (normalize inv reading) m) as [m' [[] | e]];
    [| reflexivity].
  apply IH. intros i a Hin. apply (Hsame i a). right. exact Hin.
Qed.

End DispatcherFrame.

(** X18.  The dispatcher looks at the readings of the bound sliders only:
    two batches that agree at every index of the table, whatever they hold
    elsewhere and however long they are, have the same effect on the mixer
    and the same outcome. *)
Theorem set_volume_reads_bound_sliders_only :
  forall (Mixer : Type)
         (app_set_volume : SessionObject -> float -> Mixer -> Mixer * result unit)
         (self : Control) (session_dict : dict Z SessionObject)
         (values values' : list Z) (m : Mixer),
    sessions self = Some session_dict ->
    (forall index app, In (index, app) session_dict ->
                       py_index values index = py_index values' index) ->
    set_volume Mixer app_set_volume self values m =
    set_volume Mixer app_set_volume self values' m.
Proof.
  intros Mixer app_set_volume self sd values values' m Hsessions Hsame.
  unfold set_volume. rewrite Hsessions. apply dispatch_frame. exact Hsame.
Qed.

Lemma set_volume_reads_bound_sliders_only_witness :
  set_volume call_log record_call
    (mkControl [] 4 None None false [] [] None
       (Some [(0, Master 0); (2, Session 2 chrome)])) [100; 7; 300] [] =
  set_volume call_log record_call
    (mkControl [] 4 None None false [] [] None
       (Some [(0, Master 0); (2, Session 2 chrome)])) [100; 900; 300; 55] [].
Proof.
  apply (set_volume_reads_bound_sliders_only call_log record_call
           (mkControl [] 4 None None false [] [] None
              (Some [(0, Master 0); (2, Session 2 chrome)]))
           [(0, Master 0); (2, Session 2 chrome)]).
  - reflexivity.
  - intros index app [E | [E | []]]; injection E as <- <-; reflexivity.
Defined.

(** ** Start-up *)

Example py_int_examples :
  py_int "5" = Some 5 /\ py_int " 12 " = Some 12 /\ py_int "-3" = Some (-3)
  /\ py_int "+007" = Some 7 /\ py_int "1_000" = Some 1000
  /\ py_int "" = None /\ py_int "five" = None /\ py_int "1__0" = None
  /\ py_int "_1" = None /\ py_int "1_" = None /\ py_int "+ 1" = None
  /\ py_int "5.0" = None /\ py_int "-" = None.
Proof. repeat split; reflexivity. Qed.

Lemma contains_empty (s : string) : Str.contains "" s = true.
Proof.
  destruct s; reflexivity.
Qed.

Lemma first_port_none (device_name : string)
    (sorted_ports : list (string * string * string)) :
  first_port device_name sorted_ports = None <->
  forall port desc hwid,
    In (port, desc, hwid) sorted_ports ->
    Str.contains device_name desc = false.
Proof.
  induction sorted_ports as [| [[p d] h] ports IH]; simpl.
  - split; [intros _ ? ? ? [] | reflexivity].
  - destruct (Str.contains device_name d) eqn:E.
    + split; [discriminate |].
      intros H. specialize (H p d h (or_introl eq_refl)). congruence.
    + rewrite IH. split.
      * intros H port desc hwid [Eq | Hin];
          [injection Eq as <- <- <-; exact E | exact (H _ _ _ Hin)].
      * intros H port desc hwid Hin. apply (H port desc hwid). right. exact Hin.
Qed.

(** X19.  [get_port] prefers the machine to the file: when the description
    of some serial port contains the configured device name, it returns the
    first such port in sorted order and never reads the [port] setting; only
    when no description matches does it return the [port] setting, and raise
    [ValueError] if there is none.  A configuration without [device name]
    raises [IndexError] even if it has a [port] setting. *)
Theorem get_port_cases :
  forall (lines : list string) (sorted_ports : list (string * string * string)),
    (has_key lines "device name" = false ->
     get_port lines sorted_ports = Fail (Lookup IndexError))
    /\ (forall device_name before after port desc hwid,
           get_setting lines "device name" = Ok device_name ->
           sorted_ports = (before ++ (port, desc, hwid) :: after)%list ->
           Str.contains device_name desc = true ->
           (forall p d h, In (p, d, h) before ->
                          Str.contains device_name d = false) ->
           get_port lines sorted_ports = Done port)
    /\ (forall device_name,
           get_setting lines "device name" = Ok device_name ->
           (forall p d h, In (p, d, h) sorted_ports ->
                          Str.contains device_name d = false) ->
           get_port lines sorted_ports =
           match get_setting lines "port" with
           | Ok port => Done port
           | Raise _ => Fail ValueError
           end).
Proof.
  intros lines sorted_ports. unfold get_port. split; [| split].
  - intros Hkey. rewrite <- get_setting_ok_iff in Hkey.
    destruct (get_setting lines "device name") as [v | e] eqn:E;
      [discriminate |].
    rewrite (get_setting_raises _ _ _ E). reflexivity.
  - intros device_name before after port desc hwid Hname -> Hmatch Hbefore.
    rewrite Hname.
    induction before as [| [[p d] h] before IH]; simpl.
    + rewrite Hmatch. reflexivity.
    + rewrite (Hbefore p d h (or_introl eq_refl)). apply IH.
      intros p' d' h' Hin. apply (Hbefore p' d' h'). right. exact Hin.
  - intros device_name Hname Hnone. rewrite Hname.
    rewrite (proj2 (first_port_none device_name sorted_ports) Hnone).
    reflexivity.
Qed.

Lemma get_port_cases_witness :
  get_port ["port:COM8"] [("COM3", "Arduino Micro (COM3)", "USB VID:PID")]
  = Fail (Lookup IndexError)
  /\ get_port (Str.split newline default_mapping_txt)
       [("COM1", "Communications Port (COM1)", "ACPI");
        ("COM3", "Arduino Micro (COM3)", "USB VID:PID=2341:8037")]
     = Done "COM3"
  /\ get_port (Str.split newline default_mapping_txt)
       [("COM1", "Communications Port (COM1)", "ACPI")]
     = Done "COM8".
Proof.
  split; [| split].
  - apply (proj1 (get_port_cases ["port:COM8"]
                    [("COM3", "Arduino Micro (COM3)", "USB VID:PID")])).
    reflexivity.
  - apply (proj1 (proj2 (get_port_cases
                           (Str.split newline default_mapping_txt)
                           [("COM1", "Communications Port (COM1)", "ACPI");
                            ("COM3", "Arduino Micro (COM3)",
                             "USB VID:PID=2341:8037")]))
             "Arduino Micro" [("COM1", "Communications Port (COM1)", "ACPI")]
             [] "COM3" "Arduino Micro (COM3)" "USB VID:PID=2341:8037").
    + vm_compute. reflexivity.
    + reflexivity.
    + reflexivity.
    + intros p d h [E | []]. injection E as <- <- <-. reflexivity.
  - apply (proj2 (proj2 (get_port_cases
                           (Str.split newline default_mapping_txt)
                           [("COM1", "Communications Port (COM1)", "ACPI")]))
             "Arduino Micro").
    + vm_compute. reflexivity.
    + intros p d h [E | []]. injection E as <- <- <-. reflexivity.
Defined.

(** X20.  An empty device name matches every description: with a line
    [device name:] that has no value and at least one serial port on the
    machine, [get_port] returns the first port in sorted order, whatever the
    [port] setting says. *)
Theorem get_port_empty_device_name :
  forall (lines : list string) (port desc hwid : string)
         (others : list (string * string * string)),
    get_setting lines "device name" = Ok "" ->
    get_port lines ((port, desc, hwid) :: others) = Done port.
Proof.
  intros lines port desc hwid others Hname.
  unfold get_port. rewrite Hname. simpl.
  rewrite contains_empty. reflexivity.
Qed.

Lemma get_port_empty_device_name_witness :
  get_port ["device name:"; "port:COM8"]
    [("COM1", "Communications Port (COM1)", "ACPI")] = Done "COM1".
Proof.
  apply (get_port_empty_device_name ["device name:"; "port:COM8"]).
  reflexivity.
Defined.

Lemma default_target_idxs :
  read_target_idxs (Str.split newline default_mapping_txt) (range 5) [] =
  Ok [(KStr "master", 0); (KStr "system", 1); (KStr "chrome.exe", 2);
      (KStr "spotify.exe", 3); (KStr "unmapped", 4)].
Proof. vm_compute. reflexivity. Qed.

Lemma default_settings :
  get_setting (Str.split newline default_mapping_txt) "sliders" = Ok "5"
  /\ get_setting (Str.split newline default_mapping_txt) "device name"
     = Ok "Arduino Micro"
  /\ get_setting (Str.split newline default_mapping_txt) "port" = Ok "COM8"
  /\ get_setting (Str.split newline default_mapping_txt) "baudrate" = Ok "9600"
  /\ read_inverted (Str.split newline default_mapping_txt) = Ok false
  /\ get_setting (Str.split newline default_mapping_txt) "system in unmapped"
     = Ok "True".
Proof. vm_compute. repeat split; reflexivity. Qed.

(** X21.  The configuration that [__init__] writes when there is no file is
    one that [__init__] accepts: on any machine with a system sounds session
    the object is built, with 5 sliders, baudrate 9600, no inversion, the
    sliders declared as in the default text, and as port the first serial
    port whose description contains [Arduino Micro], or [COM8] when there is
    none.  Without a system sounds session the construction raises
    [IndexError]. *)
Theorem init_without_file :
  forall (ports : list (string * string * string))
         (live : list AudioSession),
    (has_system_session live = true ->
     exists self,
       init (mkMachine None ports live) = Done self
       /\ lines self = Str.split newline default_mapping_txt
       /\ sliders self = 5
       /\ baudrate self = Some "9600"
       /\ inverted self = false
       /\ port self = Some (match first_port "Arduino Micro" ports with
                            | Some p => p
                            | None => "COM8"
                            end)
       /\ target_idxs self =
          [(KStr "master", 0); (KStr "system", 1); (KStr "chrome.exe", 2);
           (KStr "spotify.exe", 3); (KStr "unmapped", 4)]
       /\ found_pycaw_sessions self = Some live)
    /\ (has_system_session live = false ->
        init (mkMachine None ports live) = Fail (Lookup IndexError)).
Proof.
  intros ports live.
  destruct default_settings as [Hs [Hd [Hp [Hb [Hi Hu]]]]].
  assert (Hport : get_port (Str.split newline default_mapping_txt) ports =
                  Done (match first_port "Arduino Micro" ports with
                        | Some p => p
                        | None => "COM8"
                        end)).
  { unfold get_port. rewrite Hd, Hp.
    destruct (first_port "Arduino Micro" ports); reflexivity. }
  unfold init. cbn [ensure_config file serial_ports audio_sessions].
  rewrite Hs. change (py_int "5") with (Some 5).
  rewrite Hport, Hb, Hi.
  unfold get_mapping. cbn [load_config lines sliders config_text live_sessions
                           port baudrate inverted unmapped].
  rewrite default_target_idxs. cbn [bind].
  rewrite <- find_system_session_ok_iff.
  destruct (find_system_session live) as [sys | e] eqn:Es; cbn [bind is_ok].
  - split; [intros _ | discriminate].
    unfold resolve_unmapped.
    destruct (resolve_items _ _ _) as [sd m].
    change (dict_get target_key_eq_dec (KStr "unmapped")
              [(KStr "master", 0); (KStr "system", 1); (KStr "chrome.exe", 2);
               (KStr "spotify.exe", 3); (KStr "unmapped", 4)])
      with (Some 4).
    cbv iota. rewrite Hu. cbn [bind].
    eexists. split; [reflexivity |]. cbn. repeat split.
  - split; [discriminate | intros _].
    rewrite (py_index_raises _ _ _ Es). reflexivity.
Qed.

Lemma init_without_file_witness :
  exists self,
    init (mkMachine None [("COM3", "Arduino Micro (COM3)", "USB")]
            [system_sounds; chrome]) = Done self
    /\ lines self = Str.split newline default_mapping_txt
    /\ sliders self = 5
    /\ baudrate self = Some "9600"
    /\ inverted self = false
    /\ port self
       = Some (match first_port "Arduino Micro"
                       [("COM3", "Arduino Micro (COM3)", "USB")] with
               | Some p => p
               | None => "COM8"
               end)
    /\ target_idxs self =
       [(KStr "master", 0); (KStr "system", 1); (KStr "chrome.exe", 2);
        (KStr "spotify.exe", 3); (KStr "unmapped", 4)]
    /\ found_pycaw_sessions self = Some [system_sounds; chrome].
Proof.
  apply (proj1 (init_without_file [("COM3", "Arduino Micro (COM3)", "USB")]
                  [system_sounds; chrome])).
  reflexivity.
Defined.

(** X22.  [__init__] cannot do without any of the settings [sliders],
    [device name], [baudrate] and [inverted]: on a file that lacks one of
    them the construction fails.  It raises [ValueError] when the value of
    [sliders] is not an integer. *)
Theorem init_required_settings :
  forall (text : string) (ports : list (string * string * string))
         (live : list AudioSession),
    (forall key,
        In key ["sliders"; "device name"; "baudrate"; "inverted"] ->
        has_key (Str.split newline text) key = false ->
        exists e, init (mkMachine (Some text) ports live) = Fail e)
    /\ (forall setting,
           get_setting (Str.split newline text) "sliders" = Ok setting ->
           py_int setting = None ->
           init (mkMachine (Some text) ports live) = Fail ValueError).
Proof.
  intros text ports live. split.
  - intros key Hkey Hmissing. rewrite <- get_setting_ok_iff in Hmissing.
    unfold init. cbn [ensure_config file serial_ports audio_sessions].
    destruct (get_setting (Str.split newline text) "sliders") as [s | e] eqn:Es;
      [| eexists; reflexivity].
    destruct (py_int s) as [n |]; [| eexists; reflexivity].
    destruct (get_port (Str.split newline text) ports) as [p | e] eqn:Ep;
      [| eexists; reflexivity].
    destruct (get_setting (Str.split newline text) "baudrate") as [b | e] eqn:Eb;
      [| eexists; reflexivity].
    destruct (read_inverted (Str.split newline text)) as [i | e] eqn:Ei;
      [| eexists; reflexivity].
    exfalso. simpl in Hkey.
    destruct Hkey as [<- | [<- | [<- | [<- | []]]]].
    + rewrite Es in Hmissing. discriminate.
    + unfold get_port in Ep.
      destruct (get_setting (Str.split newline text) "device name");
        discriminate.
    + rewrite Eb in Hmissing. discriminate.
    + unfold read_inverted in Ei.
      destruct (get_setting (Str.split newline text) "inverted");
        discriminate.
  - intros setting Hsetting Hint. unfold init.
    cbn [ensure_config file]. rewrite Hsetting, Hint. reflexivity.
Qed.

Lemma init_required_settings_witness :
  (exists e,
      init (mkMachine (Some (unlines ["sliders: 1"; "0: master";
                                      "device name: Arduino"; "port:COM8";
                                      "inverted:False"]))
              [] [system_sounds]) = Fail e)
  /\ init (mkMachine (Some (unlines ["sliders: five"; "0: master"]))
             [] [system_sounds]) = Fail ValueError.
Proof.
  split.
  - apply (proj1 (init_required_settings
                    (unlines ["sliders: 1"; "0: master"; "device name: Arduino";
                              "port:COM8"; "inverted:False"])
                    [] [system_sounds]) "baudrate").
    + simpl. tauto.
    + reflexivity.
  - apply (proj2 (init_required_settings
                    (unlines ["sliders: five"; "0: master"]) []
                    [system_sounds]) "five").
    + reflexivity.
    + reflexivity.
Defined.

(** X23.  With no slider ([sliders] zero or negative) a pass reads no
    declaration: it needs nothing of the file, it still needs the system
    sounds session, and it leaves an empty table. *)
Theorem get_mapping_without_sliders :
  forall (w : World) (self : Control),
    sliders self <= 0 ->
    get_mapping w self =
    match find_system_session (live_sessions w) with
    | Ok _ =>
        Ok (mkControl (Str.split newline (config_text w)) (sliders self)
              (port self) (baudrate self) (inverted self) (unmapped self)
              [] (Some (live_sessions w)) (Some []))
    | Raise e => Raise e
    end.
Proof.
  intros w self Hnone. unfold get_mapping. simpl.
  unfold range. replace (Z.to_nat (sliders self)) with 0%nat by lia. simpl.
  destruct (find_system_session (live_sessions w)); reflexivity.
Qed.

Lemma get_mapping_without_sliders_witness :
  get_mapping (mkWorld "" [system_sounds; chrome]) (blank 0 true) =
  match find_system_session [system_sounds; chrome] with
  | Ok _ =>
      Ok (mkControl (Str.split newline "") 0 None None true [] []
            (Some [system_sounds; chrome]) (Some []))
  | Raise e => Raise e
  end.
Proof.
  apply (get_mapping_without_sliders (mkWorld "" [system_sounds; chrome])
           (blank 0 true)).
  simpl. lia.
Defined.

(** ** Master and system *)

Lemma find_system_session_first (found : list AudioSession)
    (system_session : AudioSession) :
  find_system_session found = Ok system_session ->
  exists before after,
    found = (before ++ system_session :: after)%list
    /\ Str.contains "SystemRoot" (DisplayName system_session) = true
    /\ forall session, In session before ->
         Str.contains "SystemRoot" (DisplayName session) = false.
Proof.
  unfold find_system_session.
  induction found as [| x found IH];
    [cbn [filter]; rewrite py_index_nil; discriminate |].
  cbn [filter].
  destruct (Str.contains "SystemRoot" (DisplayName x)) eqn:E.
  - rewrite py_index_head. intros H. injection H as <-.
    exists [], found. repeat split; [exact E | intros s []].
  - intros H. destruct (IH H) as [before [after [-> [Hsys Hbefore]]]].
    exists (x :: before), after. repeat split; [exact Hsys |].
    intros s [<- | Hin]; [exact E | exact (Hbefore s Hin)].
Qed.

(** X24.  The words [master] and [system] are recognised in any casing and
    need no live process: the last slider that declares [master] is bound to
    the master target, and the last slider that declares [system] is bound
    to the system target over the first live session whose display name
    contains [SystemRoot]. *)
Theorem master_and_system_resolution :
  forall (w : World) (self self' : Control)
         (session_dict : dict Z SessionObject) (idx : Z) (name : string),
    get_mapping w self = Ok self' ->
    sessions self' = Some session_dict ->
    0 <= idx < sliders self ->
    declaration (Str.split newline (config_text w)) idx = Ok (KStr name) ->
    (forall later, idx < later < sliders self ->
       declaration (Str.split newline (config_text w)) later
       <> Ok (KStr name)) ->
    (Str.lower name = "master" ->
     dict_get Z.eq_dec idx session_dict = Some (Master idx))
    /\ (Str.lower name = "system" ->
        exists before system_session after,
          live_sessions w = (before ++ system_session :: after)%list
          /\ Str.contains "SystemRoot" (DisplayName system_session) = true
          /\ (forall session, In session before ->
                Str.contains "SystemRoot" (DisplayName session) = false)
          /\ dict_get Z.eq_dec idx session_dict
             = Some (System idx system_session)).
Proof.
  intros w self self' sd idx name Hpass Hsessions Hidx Hdecl Hlater.
  pose proof (last_declared_of_last _ _ _ _ Hidx Hdecl Hlater) as Hlast.
  destruct (slider_entry_last w self self' sd idx (KStr name)
              Hpass Hsessions Hlast) as [sys [Hsys [Hbound _]]].
  split.
  - intros Hname. rewrite Hbound.
    + simpl. rewrite Hname. reflexivity.
    + intros E. injection E as ->. discriminate Hname.
  - intros Hname.
    destruct (find_system_session_first _ _ Hsys)
      as [before [after [Hlive [Hroot Hbefore]]]].
    exists before, sys, after. repeat split; try assumption.
    rewrite Hbound.
    + simpl. rewrite Hname. reflexivity.
    + intros E. injection E as ->. discriminate Hname.
Qed.

Lemma master_and_system_resolution_witness :
  dict_get Z.eq_dec 0 [(0, Master 0); (1, System 1 audiodg)]
  = Some (Master 0)
  /\ exists before system_session after,
       live_sessions capitals_scenario
       = (before ++ system_session :: after)%list
       /\ Str.contains "SystemRoot" (DisplayName system_session) = true
       /\ (forall session, In session before ->
             Str.contains "SystemRoot" (DisplayName session) = false)
       /\ dict_get Z.eq_dec 1 [(0, Master 0); (1, System 1 audiodg)]
          = Some (System 1 system_session).
Proof.
  split.
  - apply (proj1 (master_and_system_resolution capitals_scenario
                    (blank 2 false)
                    (mkControl
                       (Str.split newline (config_text capitals_scenario))
                       2 None None false []
                       [(KStr "MASTER", 0); (KStr "System", 1)]
                       (Some (live_sessions capitals_scenario))
                       (Some [(0, Master 0); (1, System 1 audiodg)]))
                    [(0, Master 0); (1, System 1 audiodg)] 0 "MASTER"
                    ltac:(vm_compute; reflexivity) eq_refl
                    ltac:(simpl; lia) ltac:(vm_compute; reflexivity)
                    ltac:(intros later H; simpl in H;
                          assert (later = 1) as -> by lia;
                          vm_compute; discriminate))).
    reflexivity.
  - apply (proj2 (master_and_system_resolution capitals_scenario
                    (blank 2 false)
                    (mkControl
                       (Str.split newline (config_text capitals_scenario))
                       2 None None false []
                       [(KStr "MASTER", 0); (KStr "System", 1)]
                       (Some (live_sessions capitals_scenario))
                       (Some [(0, Master 0); (1, System 1 audiodg)]))
                    [(0, Master 0); (1, System 1 audiodg)] 1 "System"
                    ltac:(vm_compute; reflexivity) eq_refl
                    ltac:(simpl; lia) ltac:(vm_compute; reflexivity)
                    ltac:(intros later H; simpl in H; lia))).
    reflexivity.
Defined.

(** * The scenario and the [system in unmapped] setting *)

(** C2 fails as stated: on the four declarations alone, and on the four
    declarations with the number of sliders, the pass does not produce a
    table; the lookup of [system in unmapped] at line 157 raises
    [IndexError]. *)
Lemma scenario_without_system_key_raises :
  get_mapping scenario_as_declared (blank 4 false) = Raise IndexError
  /\ get_mapping scenario_with_sliders (blank 4 false) = Raise IndexError.
Proof.
  split; vm_compute; reflexivity.
Qed.

(** C2, as the code has it.  For every configuration of four sliders in
    which the lookups of 0, 1, 2 and 3 give master, system, chrome.exe and
    unmapped, and which has a [system in unmapped] setting, of any value,
    the pass over the live sessions chrome.exe, firefox.exe and system
    sounds (with or without a process) produces exactly {0: Master,
    1: System, 2: Session(chrome.exe), 3: Group([firefox.exe])}: the system
    session, mapped at slider 1, is not in the unmapped group. *)
Theorem scenario_resolution_with_system_key :
  forall (w : World) (self : Control) (system_has_process : bool)
         (setting : string),
    sliders self = 4 ->
    get_setting (Str.split newline (config_text w)) "0" = Ok "master" ->
    get_setting (Str.split newline (config_text w)) "1" = Ok "system" ->
    get_setting (Str.split newline (config_text w)) "2" = Ok "chrome.exe" ->
    get_setting (Str.split newline (config_text w)) "3" = Ok "unmapped" ->
    get_setting (Str.split newline (config_text w)) "system in unmapped"
    = Ok setting ->
    live_sessions w = live_sessions (scenario true system_has_process) ->
    exists self',
      get_mapping w self = Ok self'
      /\ sessions self' =
         Some [(0, Master 0);
               (1, System 1
                     (nth 2 (live_sessions (scenario true system_has_process))
                          chrome));
               (2, Session 2 chrome);
               (3, SessionGroup 3 [firefox])].
Proof.
  intros w self system_has_process setting Hsliders H0 H1 H2 H3 Hkey Hlive.
  set (cfg := Str.split newline (config_text w)) in *.
  assert (D0 : declaration cfg 0 = Ok (KStr "master"))
    by (unfold declaration; change (Str.of_int 0) with "0"; rewrite H0;
        reflexivity).
  assert (D1 : declaration cfg 1 = Ok (KStr "system"))
    by (unfold declaration; change (Str.of_int 1) with "1"; rewrite H1;
        reflexivity).
  assert (D2 : declaration cfg 2 = Ok (KStr "chrome.exe"))
    by (unfold declaration; change (Str.of_int 2) with "2"; rewrite H2;
        reflexivity).
  assert (D3 : declaration cfg 3 = Ok (KStr "unmapped"))
    by (unfold declaration; change (Str.of_int 3) with "3"; rewrite H3;
        reflexivity).
  assert (Ht : read_target_idxs cfg (range 4) [] =
               Ok [(KStr "master", 0); (KStr "system", 1);
                   (KStr "chrome.exe", 2); (KStr "unmapped", 3)]).
  { change (range 4) with [0; 1; 2; 3].
    cbn [read_target_idxs]. rewrite D0. cbn [bind read_target_idxs].
    rewrite D1. cbn [bind read_target_idxs].
    rewrite D2. cbn [bind read_target_idxs].
    rewrite D3. reflexivity. }
  unfold get_mapping.
  cbn [load_config lines sliders config_text port baudrate inverted
       unmapped].
  fold cfg. rewrite Hsliders, Ht. cbn [bind]. rewrite Hlive.
  unfold resolve_unmapped.
  change (dict_get target_key_eq_dec (KStr "unmapped")
            [(KStr "master", 0); (KStr "system", 1); (KStr "chrome.exe", 2);
             (KStr "unmapped", 3)])
    with (Some 3).
  destruct system_has_process.
  - destruct (find_system_session (live_sessions (scenario true true)))
      as [sys | e] eqn:Es; vm_compute in Es; [| discriminate Es].
    injection Es as <-. cbn [bind].
    destruct (resolve_items _ _ _) as [sd m] eqn:Er. vm_compute in Er.
    injection Er as <- <-. rewrite Hkey. cbn [bind].
    eexists. split; [reflexivity |]. cbn [sessions].
    destruct (String.eqb (Str.lower setting) "false"); vm_compute;
      reflexivity.
  - destruct (find_system_session (live_sessions (scenario true false)))
      as [sys | e] eqn:Es; vm_compute in Es; [| discriminate Es].
    injection Es as <-. cbn [bind].
    destruct (resolve_items _ _ _) as [sd m] eqn:Er. vm_compute in Er.
    injection Er as <- <-. rewrite Hkey. cbn [bind].
    eexists. split; [reflexivity |]. cbn [sessions].
    destruct (String.eqb (Str.lower setting) "false"); vm_compute;
      reflexivity.
Qed.

Lemma scenario_resolution_with_system_key_witness :
  exists self',
    get_mapping (scenario false false) (blank 4 true) = Ok self'
    /\ sessions self' =
       Some [(0, Master 0);
             (1, System 1 (nth 2 (live_sessions (scenario true false)) chrome));
             (2, Session 2 chrome);
             (3, SessionGroup 3 [firefox])].
Proof.
  apply (scenario_resolution_with_system_key (scenario false false)
           (blank 4 true) false "False").
  - reflexivity.
  - reflexivity.
  - reflexivity.
  - reflexivity.
  - reflexivity.
  - reflexivity.
  - reflexivity.
Defined.


